(** * patent-news-get-browser: the crawl pipeline and the summarization client

    A shallow embedding of [src/crawler/engine.ts] (class [CrawlerEngine]) and
    [src/ai/qwen.ts] (class [AIService]), with the configuration records of
    [src/config/types.ts] and the [Article] interface of the repository layer.

    Modelling conventions.
    - A JavaScript string is the list of its UTF-16 code units ([jsstring]).
    - A JavaScript number that the code uses as a count or a page number is
      an integer ([Z]); configuration files hold integers there.
    - An optional field ([f?: T]) is an [option]; truthiness tests such as
      [if (x)] and [x || d] are written out ([truthy], [orDefault], ...).
    - A call that may throw returns a [result]; [try]/[catch] is a match.
    - The browser, the clock, the URL resolver, the boilerplate remover and
      the host's date parser are not code of this repository: they are the
      fields of a [Runtime] record; the summarization backend is a [Backend]
      record.
    - Delays ([delay], [sleep]) and console output are not modelled. *)

From Stdlib Require Import ZArith NArith Lia List Bool Ascii String.
From Stdlib Require Import DecimalString.
From stdpp Require Import base option list gmap.

Set Default Proof Using "Type".
Local Open Scope Z_scope.

(* ===================================================================== *)
(** * Part I. Definitions                                                 *)
(* ===================================================================== *)

(** ** JavaScript strings and the few primitives the code uses *)

Module JS.

(** UTF-16 code units. *)
Definition jsstring := list N.

(** Decoding of a source literal (UTF-8 bytes) into code units, so that
    the literals of the TypeScript source can be written as they are. *)
Definition cont (b : N) : N := N.land b 63.

Definition units_of_codepoint (cp : N) : jsstring :=
  if (cp <? 65536)%N then [cp]
  else let v := (cp - 65536)%N in
       [(55296 + N.shiftr v 10)%N; (56320 + N.land v 1023)%N].

Fixpoint utf8_decode (bs : list N) : jsstring :=
  match bs with
  | [] => []
  | b0 :: r0 =>
    if (b0 <? 128)%N then b0 :: utf8_decode r0
    else if (b0 <? 224)%N then
      match r0 with
      | b1 :: r1 =>
        units_of_codepoint (N.land b0 31 * 64 + cont b1)%N ++ utf8_decode r1
      | [] => [65533%N]
      end
    else if (b0 <? 240)%N then
      match r0 with
      | b1 :: b2 :: r2 =>
        units_of_codepoint ((N.land b0 15 * 64 + cont b1) * 64 + cont b2)%N
          ++ utf8_decode r2
      | _ => [65533%N]
      end
    else
      match r0 with
      | b1 :: b2 :: b3 :: r3 =>
        units_of_codepoint
          (((N.land b0 7 * 64 + cont b1) * 64 + cont b2) * 64 + cont b3)%N
          ++ utf8_decode r3
      | _ => [65533%N]
      end
  end.

Definition js (s : string) : jsstring :=
  utf8_decode (List.map N_of_ascii (list_ascii_of_string s)).

(** [!s] for a string: only the empty string is falsy. *)
Definition nonEmpty (s : jsstring) : bool :=
  match s with [] => false | _ :: _ => true end.

(** [if (x)] for an optional string: [undefined] and the empty string are
    falsy. *)
Definition truthy (o : option jsstring) : bool :=
  match o with Some s => nonEmpty s | None => false end.

(** [x || d] for an optional string. *)
Definition orDefault (o : option jsstring) (d : jsstring) : jsstring :=
  match o with
  | Some s => if nonEmpty s then s else d
  | None => d
  end.

(** [x || d] for an optional number: [undefined] and [0] are falsy. *)
Definition numOr (o : option Z) (d : Z) : Z :=
  match o with
  | Some n => if n =? 0 then d else n
  | None => d
  end.

(** [if (x)] for an optional boolean. *)
Definition flag (o : option bool) : bool :=
  match o with Some b => b | None => false end.

(** White space of ECMAScript ([WhiteSpace] and [LineTerminator]): what
    [String.prototype.trim] removes and what [\s] matches. *)
Definition isWhiteSpace (c : N) : bool :=
  ((9 <=? c) && (c <=? 13) || (c =? 32) || (c =? 160) || (c =? 5760)
   || (8192 <=? c) && (c <=? 8202) || (c =? 8232) || (c =? 8233)
   || (c =? 8239) || (c =? 8287) || (c =? 12288) || (c =? 65279))%N.

Fixpoint dropWhile (p : N -> bool) (s : jsstring) : jsstring :=
  match s with
  | [] => []
  | c :: r => if p c then dropWhile p r else s
  end.

Definition dropWhileEnd (p : N -> bool) (s : jsstring) : jsstring :=
  rev (dropWhile p (rev s)).

(** [s.trim()] *)
Definition trim (s : jsstring) : jsstring :=
  dropWhileEnd isWhiteSpace (dropWhile isWhiteSpace s).

Definition unitEqb (a b : N) : bool := (a =? b)%N.

(** [s.startsWith(p)] *)
Fixpoint startsWith (s p : jsstring) : bool :=
  match p, s with
  | [], _ => true
  | _ :: _, [] => false
  | a :: p', b :: s' => unitEqb a b && startsWith s' p'
  end.

(** [s.replace(pat, by)] with a string pattern: the first occurrence only.
    (The replacement strings used by the code hold no [$].) *)
Fixpoint replaceFirst (s pat by_ : jsstring) : jsstring :=
  if startsWith s pat then by_ ++ skipn (length pat) s
  else match s with
       | [] => []
       | c :: r => c :: replaceFirst r pat by_
       end.

(** [n.toString()] for an integer. *)
Definition numberToString (n : Z) : jsstring :=
  List.map N_of_ascii (list_ascii_of_string (NilZero.string_of_int (Z.to_int n))).

(** [s.substring(0, n)] *)
Definition substring0 (n : nat) (s : jsstring) : jsstring := firstn n s.

Definition isDigit (c : N) : bool := ((48 <=? c) && (c <=? 57))%N.

Definition digitVal (c : N) : Z := Z.of_N c - 48.

(** The value of a run of decimal digits. *)
Definition digitsVal (ds : jsstring) : Z :=
  fold_left (fun acc c => 10 * acc + digitVal c) ds 0.

End JS.
Export JS.

(** ** Results of calls that may throw *)

Inductive result (A : Type) : Type :=
| Ok (a : A)
| Throw.
Arguments Ok {A} a.
Arguments Throw {A}.

#[global] Instance result_ret : MRet result := fun _ a => Ok a.
#[global] Instance result_bind : MBind result :=
  fun _ _ k r => match r with Ok a => k a | Throw => Throw end.

(** [try { r } catch { h }] *)
Definition catch {A} (r : result A) (h : A) : A :=
  match r with Ok a => a | Throw => h end.

(** ** Calendar dates

    A valid [Date] is kept at day granularity: the number of days between
    1970-01-01 and its calendar date.  The hour of the day and the time zone
    in which the host reads a date string are outside the model. *)

Module Calendar.

Definition isLeapYear (y : Z) : bool :=
  (y mod 4 =? 0) && (negb (y mod 100 =? 0) || (y mod 400 =? 0)).

Definition daysInMonth (y m : Z) : Z :=
  if m =? 2 then (if isLeapYear y then 29 else 28)
  else if (m =? 4) || (m =? 6) || (m =? 9) || (m =? 11) then 30
  else 31.

(** Day number of the civil date [y]-[m]-[d] (months count from 1). *)
Definition dayOfCivil (y m d : Z) : Z :=
  let y' := if m <=? 2 then y - 1 else y in
  let era := y' / 400 in
  let yoe := y' - era * 400 in
  let mp := if 2 <? m then m - 3 else m + 9 in
  let doy := (153 * mp + 2) / 5 + d - 1 in
  let doe := yoe * 365 + yoe / 4 - yoe / 100 + doy in
  era * 146097 + doe - 719468.

(** A [Date] object: [getTime()] is a number or [NaN]. *)
Inductive JSDate : Type :=
| ValidDate (day : Z)
| InvalidDate.

(** [!isNaN(date.getTime())] *)
Definition isValid (d : JSDate) : bool :=
  match d with ValidDate _ => true | InvalidDate => false end.

(** What ECMAScript fixes for a string of the shape [YYYY-MM-DD] (the
    date-only form of its Date Time String Format). *)
Inductive IsoOutcome : Type :=
| IsoDate (day : Z)     (* a date of the calendar *)
| IsoOutOfBounds        (* month not in 01..12 or day not in 01..31: NaN *)
| IsoHostDefined        (* day in 29..31 beyond the month: hosts differ *)
| NotIsoDateOnly.       (* another shape: left to the host *)

Definition isoDateOnly (s : jsstring) : IsoOutcome :=
  match s with
  | [y1; y2; y3; y4; h1; m1; m2; h2; d1; d2] =>
    if forallb isDigit [y1; y2; y3; y4; m1; m2; d1; d2]
       && unitEqb h1 45 && unitEqb h2 45
    then
      let y := digitsVal [y1; y2; y3; y4] in
      let m := digitsVal [m1; m2] in
      let d := digitsVal [d1; d2] in
      if (1 <=? m) && (m <=? 12) && (1 <=? d) && (d <=? 31) then
        if d <=? daysInMonth y m then IsoDate (dayOfCivil y m d)
        else IsoHostDefined
      else IsoOutOfBounds
    else NotIsoDateOnly
  | _ => NotIsoDateOnly
  end.

(** [new Date(s)]; [host] is the host's parser for what ECMAScript leaves
    to it. *)
Definition newDate (host : jsstring -> option Z) (s : jsstring) : JSDate :=
  match isoDateOnly s with
  | IsoDate day => ValidDate day
  | IsoOutOfBounds => InvalidDate
  | IsoHostDefined | NotIsoDateOnly =>
    match host s with
    | Some day => ValidDate day
    | None => InvalidDate
    end
  end.

End Calendar.
Export Calendar.

(** ** The Date Normalizer: [CrawlerEngine.parseDate] *)

Module DateNormalizer.

(** One match attempt of [/发布(时间|日期)[：:]/] at the head of [s]. *)
Definition prefixAt (s : jsstring) : bool :=
  startsWith s (js "发布")
  && (startsWith (skipn 2 s) (js "时间") || startsWith (skipn 2 s) (js "日期"))
  && (startsWith (skipn 4 s) (js "：") || startsWith (skipn 4 s) (js ":")).

(** [.replace(/发布(时间|日期)[：:]/g, empty)]: every match, scanning from the
    left, is removed; [skip] counts the units of a match still to drop
    (each match is five units long). *)
Fixpoint removePrefixes (skip : nat) (s : jsstring) : jsstring :=
  match s with
  | [] => []
  | c :: r =>
    match skip with
    | S k => removePrefixes k r
    | O => if prefixAt s then removePrefixes 4 r else c :: removePrefixes 0 r
    end
  end.

(** The class [[·\s]]. *)
Definition isDotOrSpace (c : N) : bool := unitEqb c 183 || isWhiteSpace c.

(** [.replace(/[·\s]+$/, empty)]: the leftmost match is the whole trailing
    run of the class. *)
Definition stripTrailing (s : jsstring) : jsstring :=
  dropWhileEnd isDotOrSpace s.

Definition cleanDate (dateStr : jsstring) : jsstring :=
  trim (stripTrailing (removePrefixes 0 dateStr)).

(** The classes [[年/-]] and [[月/-]]. *)
Definition isYearSep (c : N) : bool :=
  unitEqb c 24180 || unitEqb c 47 || unitEqb c 45.
Definition isMonthSep (c : N) : bool :=
  unitEqb c 26376 || unitEqb c 47 || unitEqb c 45.

(** [(\d{1,2})[日]?] at the head of [s]: greedy, so two digits when there
    are two; the optional [日] never makes the match fail. *)
Definition matchDay (s : jsstring) : option jsstring :=
  match s with
  | d1 :: d2 :: _ =>
    if isDigit d1 then Some (if isDigit d2 then [d1; d2] else [d1]) else None
  | [d1] => if isDigit d1 then Some [d1] else None
  | [] => None
  end.

(** [(\d{1,2})[月/-](\d{1,2})] at the head of [s]: the two-digit month is
    tried first, then the one-digit month (backtracking). *)
Definition matchMonthDay (s : jsstring) : option (jsstring * jsstring) :=
  let two :=
    match s with
    | m1 :: m2 :: sep :: r =>
      if isDigit m1 && isDigit m2 && isMonthSep sep
      then d ← matchDay r; Some ([m1; m2], d)
      else None
    | _ => None
    end in
  match two with
  | Some md => Some md
  | None =>
    match s with
    | m1 :: sep :: r =>
      if isDigit m1 && isMonthSep sep
      then d ← matchDay r; Some ([m1], d)
      else None
    | _ => None
    end
  end.

(** The whole pattern at the head of [s]; the groups 1, 2 and 3. *)
Definition matchAt (s : jsstring) : option (jsstring * jsstring * jsstring) :=
  match s with
  | y1 :: y2 :: y3 :: y4 :: sep :: r =>
    if forallb isDigit [y1; y2; y3; y4] && isYearSep sep
    then '(m, d) ← matchMonthDay r; Some ([y1; y2; y3; y4], m, d)
    else None
  | _ => None
  end.

(** [cleaned.match(/(\d{4})[年/-](\d{1,2})[月/-](\d{1,2})[日]?/)]: the
    leftmost position at which the pattern matches. *)
Fixpoint strictMatch (s : jsstring) : option (jsstring * jsstring * jsstring) :=
  match matchAt s with
  | Some g => Some g
  | None =>
    match s with
    | [] => None
    | _ :: r => strictMatch r
    end
  end.

Definition parseDate (host : jsstring -> option Z) (dateStr : option jsstring)
  : option JSDate :=
  if negb (truthy dateStr) then None
  else
    let cleaned := cleanDate (orDefault dateStr []) in
    match strictMatch cleaned with
    | Some (y, m, d) => Some (newDate host (y ++ js "-" ++ m ++ js "-" ++ d))
    | None =>
      let date := newDate host cleaned in
      if isValid date then Some date else None
    end.

End DateNormalizer.

(** ** The rendering capability (Playwright handles) *)

Module Dom.

#[local] Unset Elimination Schemes.
(** An element handle.  [queryAll sel] lists the descendants that match
    [sel] in document order, or throws (a malformed selector, a detached
    node); [textContent] is what [evaluate(el => el.textContent)] reads. *)
Inductive Element : Type :=
  mkElement {
    textContent : result (option jsstring);
    getAttribute : jsstring -> result (option jsstring);
    queryAll : jsstring -> result (list Element)
  }.
#[local] Set Elimination Schemes.

(** A rendered page: [page.$$(sel)] and [page.content()]. *)
Record Page : Type :=
  mkPage {
    pageQueryAll : jsstring -> result (list Element);
    pageContent : result jsstring
  }.

(** [evaluate(el => el.textContent?.trim() || empty)]: the trimmed text, the
    empty string when there is none. *)
Definition trimmedText (el : Element) : result jsstring :=
  t ← textContent el;
  mret (match t with Some s => trim s | None => [] end).

(** [element.$(sel)]: the first match or [null]. *)
Definition query (el : Element) (sel : jsstring) : result (option Element) :=
  els ← queryAll el sel; mret (head els).

(** [page.$(sel)] *)
Definition pageQuery (p : Page) (sel : jsstring) : result (option Element) :=
  els ← pageQueryAll p sel; mret (head els).

(** [element.$eval(sel, el => ...)] with the same function: throws when
    nothing matches. *)
Definition evalText (el : Element) (sel : jsstring) : result jsstring :=
  o ← query el sel;
  match o with
  | Some e => trimmedText e
  | None => Throw
  end.

(** What opening a page at a URL comes to. *)
Inductive PageOutcome : Type :=
| SessionError                (* initBrowser, newPage or page.close throws:
                                 the exception leaves the method *)
| NavigationError             (* page.goto throws: caught *)
| Rendered (p : Page).

End Dom.
Export Dom.

(** ** Configuration records ([src/config/types.ts]) *)

Module ListPageConfig.
Record t : Type := mk {
  articleSelector : jsstring;
  titleSelector : option jsstring;
  linkSelector : jsstring;
  dateSelector : option jsstring;
  descriptionSelector : option jsstring
}.
End ListPageConfig.

Module DetailPageConfig.
Record t : Type := mk {
  titleSelector : jsstring;
  contentSelector : jsstring;
  authorSelector : option jsstring;
  dateSelector : option jsstring;
  useReadability : option bool
}.
End DetailPageConfig.

Module PaginationConfig.
Record t : Type := mk {
  enabled : bool;
  maxPages : option Z;
  nextSelector : option jsstring;
  urlPattern : option jsstring;
  startPage : option Z
}.
End PaginationConfig.

Module WebsiteConfig.
Record t : Type := mk {
  name : jsstring;
  baseUrl : jsstring;
  url : jsstring;
  listPage : ListPageConfig.t;
  detailPage : DetailPageConfig.t;
  pagination : option PaginationConfig.t;
  delay : option Z;
  userAgent : option jsstring;
  maxArticles : option Z;
  enabled : option bool
}.

(** The same configuration with another article cap. *)
Definition withMaxArticles (c : t) (m : option Z) : t :=
  mk (name c) (baseUrl c) (url c) (listPage c) (detailPage c) (pagination c)
     (delay c) (userAgent c) m (enabled c).

(** The same configuration with another content selector. *)
Definition withContentSelector (c : t) (sel : jsstring) : t :=
  let d := detailPage c in
  mk (name c) (baseUrl c) (url c) (listPage c)
     (DetailPageConfig.mk (DetailPageConfig.titleSelector d) sel
        (DetailPageConfig.authorSelector d) (DetailPageConfig.dateSelector d)
        (DetailPageConfig.useReadability d))
     (pagination c) (delay c) (userAgent c) (maxArticles c) (enabled c).
End WebsiteConfig.

(** ** Articles *)

(** [interface ListArticle] of [engine.ts]. *)
Module ListArticle.
Record t : Type := mk {
  title : jsstring;
  url : jsstring;
  date : option jsstring;
  description : option jsstring
}.
End ListArticle.

(** [interface Article] of the repository layer (the fields the crawler and
    the summarization client touch). *)
Module Article.
Record t : Type := mk {
  title : jsstring;
  url : jsstring;
  source : jsstring;
  content : option jsstring;
  author : option jsstring;
  publish_date : option JSDate;
  crawl_date : Z
}.
End Article.

(** ** What the crawler takes from outside the repository *)

Record Runtime : Type := mkRuntime {
  World : Type;
  (* [initBrowser], [context.newPage()], [page.goto(url)], [page.close()] *)
  openPage : jsstring -> World -> PageOutcome * World;
  (* the time [new Date()] reads, as a day number *)
  clock : World -> Z;
  (* [new URL(href, base).href] *)
  resolveUrl : jsstring -> jsstring -> result jsstring;
  (* [new Readability(new JSDOM(html, {url}).window.document).parse()
     ?.textContent] *)
  readability : jsstring -> jsstring -> result (option jsstring);
  (* the host's part of [new Date(string)] *)
  hostDateParse : jsstring -> option Z
}.

(** ** The crawler: [class CrawlerEngine] *)

Module CrawlerEngine.
Import WebsiteConfig.

Section Engine.
Variable rt : Runtime.
Variable config : WebsiteConfig.t.

Definition parseDate (dateStr : option jsstring) : option JSDate :=
  DateNormalizer.parseDate (hostDateParse rt) dateStr.

(** *** [crawlListPage] *)

(** The optional fields of a list item: [try { ... $eval ... } catch {}]
    under [if (selector)]. *)
Definition optionalText (sel : option jsstring) (element : Element)
  : option jsstring :=
  if truthy sel
  then catch (v ← evalText element (orDefault sel []); mret (Some v)) None
  else None.

(** The link of a list item; the empty string when there is none. *)
Definition listItemUrl (element : Element) : result jsstring :=
  linkEl ← query element (ListPageConfig.linkSelector (listPage config));
  match linkEl with
  | Some l =>
    href ← getAttribute l (js "href");
    if truthy href then
      let h := orDefault href [] in
      if startsWith h (js "http") then mret h
      else resolveUrl rt h (baseUrl config)
    else mret []
  | None => mret []
  end.

(** The body of the loop over the items, up to the final test: the
    [ListArticle] as it stands there, or the exception the item-level
    [catch] receives. *)
Definition listItem (element : Element) : result ListArticle.t :=
  let lp := listPage config in
  title ←
    (if truthy (ListPageConfig.titleSelector lp)
     then evalText element (orDefault (ListPageConfig.titleSelector lp) [])
     else trimmedText element);
  url ← listItemUrl element;
  let date := optionalText (ListPageConfig.dateSelector lp) element in
  let description := optionalText (ListPageConfig.descriptionSelector lp) element in
  mret (ListArticle.mk title url date description).

(** [for (const element of articleElements) { try { ... } catch {} }] *)
Fixpoint listLoop (articleElements : list Element) (articles : list ListArticle.t)
  : list ListArticle.t :=
  match articleElements with
  | [] => articles
  | element :: rest =>
    match listItem element with
    | Ok article =>
      if nonEmpty (ListArticle.title article) && nonEmpty (ListArticle.url article)
      then listLoop rest (articles ++ [article])
      else listLoop rest articles
    | Throw => listLoop rest articles
    end
  end.

(** What [crawlListPage] does with the page once it is open. *)
Definition extractList (page : Page) : list ListArticle.t :=
  match pageQueryAll page (ListPageConfig.articleSelector (listPage config)) with
  | Ok articleElements => listLoop articleElements []
  | Throw => []
  end.

Definition crawlListPage (pageUrl : jsstring) (w : World rt)
  : result (list ListArticle.t) * World rt :=
  let '(o, w') := openPage rt pageUrl w in
  match o with
  | SessionError => (Throw, w')
  | NavigationError => (Ok [], w')
  | Rendered page => (Ok (extractList page), w')
  end.

(** *** [crawlDetailPage] *)

(** The title step: [try { page.$ ... evaluate } catch { fall back }]. *)
Definition detailTitle (page : Page) (listArticle : option ListArticle.t)
  : jsstring :=
  match pageQuery page (DetailPageConfig.titleSelector (detailPage config)) with
  | Ok (Some titleEl) =>
    match trimmedText titleEl with
    | Ok t => t
    | Throw => orDefault (ListArticle.title <$> listArticle) []
    end
  | Ok None => []
  | Throw => orDefault (ListArticle.title <$> listArticle) []
  end.

(** The content step in selector mode: the field is set only when an
    element matches and its text is read. *)
Definition selectorContent (page : Page) : option jsstring :=
  match pageQuery page (DetailPageConfig.contentSelector (detailPage config)) with
  | Ok (Some contentEl) =>
    match trimmedText contentEl with
    | Ok c => Some c
    | Throw => None
    end
  | Ok None => None
  | Throw => None
  end.

(** The content step in Readability mode; an exception here reaches the
    outer [catch] of [crawlDetailPage]. *)
Definition readabilityContent (page : Page) (articleUrl : jsstring)
  : result (option jsstring) :=
  html ← pageContent page;
  parsed ← readability rt html articleUrl;
  mret (Some (orDefault parsed [])).

Definition detailContent (page : Page) (articleUrl : jsstring)
  : result (option jsstring) :=
  if flag (DetailPageConfig.useReadability (detailPage config))
  then readabilityContent page articleUrl
  else mret (selectorContent page).

(** An optional text of the detail page: [page.$] then [evaluate],
    exceptions swallowed. *)
Definition detailOptionalText (page : Page) (sel : option jsstring)
  : option jsstring :=
  if truthy sel then
    match pageQuery page (orDefault sel []) with
    | Ok (Some el) =>
      match trimmedText el with
      | Ok v => Some v
      | Throw => None
      end
    | Ok None => None
    | Throw => None
    end
  else None.

(** The publish date: the detail page first, then the list item. *)
Definition detailPublishDate (page : Page) (listArticle : option ListArticle.t)
  : option JSDate :=
  let fromDetail :=
    dateText ← detailOptionalText page
                 (DetailPageConfig.dateSelector (detailPage config));
    parseDate (Some dateText) in
  match fromDetail with
  | Some d => Some d
  | None =>
    let listDate := listArticle ≫= ListArticle.date in
    if truthy listDate then parseDate listDate else None
  end.

(** What [crawlDetailPage] does with the page once it is open; [Throw] is
    an exception for the outer [catch]. *)
Definition extractDetail (page : Page) (articleUrl : jsstring)
  (listArticle : option ListArticle.t) (now : Z) : result Article.t :=
  let title := detailTitle page listArticle in
  content ← detailContent page articleUrl;
  let author :=
    detailOptionalText page (DetailPageConfig.authorSelector (detailPage config)) in
  let publish_date := detailPublishDate page listArticle in
  mret (Article.mk title articleUrl (name config) content author
          publish_date now).

Definition crawlDetailPage (articleUrl : jsstring)
  (listArticle : option ListArticle.t) (w : World rt)
  : result (option Article.t) * World rt :=
  let '(o, w') := openPage rt articleUrl w in
  match o with
  | SessionError => (Throw, w')
  | NavigationError => (Ok None, w')
  | Rendered page =>
    (Ok (catch (a ← extractDetail page articleUrl listArticle (clock rt w');
                mret (Some a)) None), w')
  end.

(** *** [getPageUrls] *)

(** [for (let i = startPage; i <= maxPages; i++) urls.push(...)]; [fuel]
    bounds the number of iterations. *)
Fixpoint pageUrlLoop (fuel : nat) (i maxPages : Z) (urlPattern : jsstring)
  (urls : list jsstring) : list jsstring :=
  match fuel with
  | O => urls
  | S fuel' =>
    if i <=? maxPages then
      let url := replaceFirst urlPattern (js "{page}") (numberToString i) in
      pageUrlLoop fuel' (i + 1) maxPages urlPattern (urls ++ [url])
    else urls
  end.

Definition getPageUrls : list jsstring :=
  match pagination config with
  | None => [url config]
  | Some pagination =>
    if negb (PaginationConfig.enabled pagination) then [url config]
    else if truthy (PaginationConfig.urlPattern pagination) then
      let maxPages := numOr (PaginationConfig.maxPages pagination) 1 in
      let startPage := numOr (PaginationConfig.startPage pagination) 1 in
      pageUrlLoop (Z.to_nat (maxPages + 1 - startPage)) startPage maxPages
        (orDefault (PaginationConfig.urlPattern pagination) []) []
    else [url config]
  end.

(** *** [crawl] *)

(** The calls [crawl] makes, each with what it returned. *)
Inductive Event : Type :=
| ListPageCrawled (pageUrl : jsstring) (r : result (list ListArticle.t))
| DetailPageCrawled (articleUrl : jsstring) (r : result (option Article.t)).

Record LoopState : Type := mkLoopState {
  allArticles : list Article.t;
  world : World rt;
  events : list Event
}.

(** [this.config.maxArticles && allArticles.length >= this.config.maxArticles] *)
Definition capReached (allArticles : list Article.t) : bool :=
  match maxArticles config with
  | Some m => negb (m =? 0) && (m <=? Z.of_nat (length allArticles))
  | None => false
  end.

(** [article && article.title && article.content] *)
Definition isComplete (article : option Article.t) : bool :=
  match article with
  | Some a => nonEmpty (Article.title a) && truthy (Article.content a)
  | None => false
  end.

(** [if (article && article.title && article.content) allArticles.push(article)] *)
Definition accumulate (allArticles : list Article.t) (article : option Article.t)
  : list Article.t :=
  match article with
  | Some a => if isComplete article then allArticles ++ [a] else allArticles
  | None => allArticles
  end.

(** The loop over the candidates of one list page.  The flag is [false]
    when an exception left the loop. *)
Fixpoint detailLoop (listArticles : list ListArticle.t) (st : LoopState)
  : bool * LoopState :=
  match listArticles with
  | [] => (true, st)
  | listArticle :: rest =>
    if capReached (allArticles st) then (true, st)
    else
      let '(r, w') :=
        crawlDetailPage (ListArticle.url listArticle) (Some listArticle)
          (world st) in
      let ev := DetailPageCrawled (ListArticle.url listArticle) r in
      match r with
      | Ok article =>
        detailLoop rest
          (mkLoopState (accumulate (allArticles st) article) w'
             (events st ++ [ev]))
      | Throw => (false, mkLoopState (allArticles st) w' (events st ++ [ev]))
      end
  end.

(** The loop over the list pages. *)
Fixpoint pageLoop (pageUrls : list jsstring) (st : LoopState)
  : bool * LoopState :=
  match pageUrls with
  | [] => (true, st)
  | pageUrl :: rest =>
    if capReached (allArticles st) then (true, st)
    else
      let '(r, w') := crawlListPage pageUrl (world st) in
      let ev := ListPageCrawled pageUrl r in
      let st1 := mkLoopState (allArticles st) w' (events st ++ [ev]) in
      match r with
      | Ok listArticles =>
        let '(ok, st2) := detailLoop listArticles st1 in
        if ok then pageLoop rest st2 else (false, st2)
      | Throw => (false, st1)
      end
  end.

Record CrawlRun : Type := mkCrawlRun {
  batch : result (list Article.t);   (* what [crawl()] resolves to *)
  finalWorld : World rt;
  trace : list Event                 (* the calls made, in order *)
}.

Definition crawl (w : World rt) : CrawlRun :=
  let pageUrls := getPageUrls in
  let '(ok, st) := pageLoop pageUrls (mkLoopState [] w []) in
  mkCrawlRun (if ok then Ok (allArticles st) else Throw) (world st) (events st).

End Engine.

Arguments mkLoopState {rt} allArticles world events.
Arguments allArticles {rt} l.
Arguments world {rt} l.
Arguments events {rt} l.
Arguments batch {rt} c.
Arguments finalWorld {rt} c.
Arguments trace {rt} c.

End CrawlerEngine.

(** ** The summarization client: [class AIService] *)

Module AIService.

(** What [this.client.post(...)] comes to. *)
Inductive Reply : Type :=
| ReplyText (text : jsstring)          (* [response.data.output.text] *)
| ReplyFailure (status : option Z).    (* a rejection, or a malformed body;
                                          [error.response?.status] *)

(** What the client takes from outside the repository. *)
Record Backend : Type := mkBackend {
  Net : Type;
  (* [this.client.post(this.apiUrl, body)], the prompt being what of the
     body depends on the article *)
  post : jsstring -> Net -> Reply * Net;
  (* [date.toLocaleString("zh-CN")] *)
  toLocaleString : JSDate -> jsstring
}.

Section Service.
Variable be : Backend.
(** [appConfig.qwen.apiKey] *)
Variable apiKey : jsstring.

Definition nl : jsstring := [10%N].

Definition buildSummaryPrompt (article : Article.t) : jsstring :=
  let prompt := js "文章标题：" ++ Article.title article ++ nl ++ nl in
  let prompt :=
    if truthy (Article.author article)
    then prompt ++ js "作者：" ++ orDefault (Article.author article) [] ++ nl ++ nl
    else prompt in
  let prompt :=
    match Article.publish_date article with
    | Some d => prompt ++ js "发布时间：" ++ toLocaleString be d ++ nl ++ nl
    | None => prompt
    end in
  let content := orDefault (Article.content article) [] in
  let truncatedContent :=
    if (3000 <? length content)%nat
    then substring0 3000 content ++ js "..."
    else content in
  let prompt := prompt ++ js "文章内容：" ++ nl ++ truncatedContent ++ nl ++ nl in
  prompt ++ js "请为这篇文章生成200-300字的摘要：".

(** The state the client threads: the network and the prompts posted so
    far, in order. *)
Record ServiceState : Type := mkServiceState {
  net : Net be;
  posted : list jsstring
}.

(** [generateSummary].  The result is [Some (Some s)] for a summary,
    [Some None] for [null], and [None] when the backend is still
    rate-limiting after [retries] retries (the source retries without a
    bound). *)
Fixpoint generateSummary (retries : nat) (article : Article.t)
  (st : ServiceState) : option (option jsstring) * ServiceState :=
  if negb (nonEmpty apiKey) then (Some None, st)
  else if negb (truthy (Article.content article)) then (Some None, st)
  else
    let prompt := buildSummaryPrompt article in
    let '(reply, n') := post be prompt (net st) in
    let st' := mkServiceState n' (posted st ++ [prompt]) in
    match reply with
    | ReplyText text => (Some (Some (trim text)), st')
    | ReplyFailure status =>
      if bool_decide (status = Some 429) then
        match retries with
        | S retries' => generateSummary retries' article st'
        | O => (None, st')
        end
      else (Some None, st')
    end.

(** The loop of [generateSummaryBatch]. *)
Fixpoint batchLoop (retries : nat) (articles : list Article.t)
  (summaryMap : gmap jsstring jsstring) (st : ServiceState)
  : option (gmap jsstring jsstring) * ServiceState :=
  match articles with
  | [] => (Some summaryMap, st)
  | article :: rest =>
    if negb (nonEmpty (Article.url article)) then
      batchLoop retries rest summaryMap st
    else
      let '(r, st') := generateSummary retries article st in
      match r with
      | Some summary =>
        let summaryMap' :=
          if truthy summary
          then <[Article.url article := orDefault summary []]> summaryMap
          else summaryMap in
        batchLoop retries rest summaryMap' st'
      | None => (None, st')
      end
  end.

Definition generateSummaryBatch (retries : nat) (articles : list Article.t)
  (n : Net be) : option (gmap jsstring jsstring) * ServiceState :=
  batchLoop retries articles ∅ (mkServiceState n []).

End Service.
End AIService.

(** ** Reading a run of [crawl] *)

Module Observe.
Import CrawlerEngine.

(** The articles the detail-page extractions of a trace produced. *)
Fixpoint produced (tr : list Event) : list Article.t :=
  match tr with
  | [] => []
  | DetailPageCrawled _ (Ok (Some a)) :: r => a :: produced r
  | _ :: r => produced r
  end.

(** An article with a non-empty title and a non-empty content. *)
Definition complete (a : Article.t) : bool :=
  nonEmpty (Article.title a) && truthy (Article.content a).

(** How many articles the events of a trace accumulated. *)
Definition accumulated (tr : list Event) : Z :=
  Z.of_nat (length (filter (fun a => complete a = true) (produced tr))).

(** The list pages visited, in order. *)
Fixpoint listPagesVisited (tr : list Event) : list jsstring :=
  match tr with
  | [] => []
  | ListPageCrawled u _ :: r => u :: listPagesVisited r
  | _ :: r => listPagesVisited r
  end.

(** The detail pages fetched, in order. *)
Fixpoint detailPagesFetched (tr : list Event) : list jsstring :=
  match tr with
  | [] => []
  | DetailPageCrawled u _ :: r => u :: detailPagesFetched r
  | _ :: r => detailPagesFetched r
  end.

(** The URLs of all the candidates the visited list pages yielded. *)
Fixpoint candidatesFound (tr : list Event) : list jsstring :=
  match tr with
  | [] => []
  | ListPageCrawled _ (Ok l) :: r => List.map ListArticle.url l ++ candidatesFound r
  | _ :: r => candidatesFound r
  end.

(** What holds of the state of the loops of [crawl] under a cap [m]: the
    batch has as many articles as the events accumulated, no more than [m],
    and every call was made while fewer than [m] were accumulated. *)
Definition capInvariant {rt : Runtime} (m : Z) (st : LoopState rt) : Prop :=
  Z.of_nat (length (allArticles st)) = accumulated (events st)
  /\ accumulated (events st) <= m
  /\ forall t1 e t2, events st = t1 ++ e :: t2 -> accumulated t1 < m.

(** No cap is in force: [maxArticles] is unset or 0. *)
Definition uncapped (config : WebsiteConfig.t) : Prop :=
  WebsiteConfig.maxArticles config = None
  \/ WebsiteConfig.maxArticles config = Some 0.

(** What the loop of [crawlListPage] adds for one item, if anything. *)
Definition emitted (rt : Runtime) (config : WebsiteConfig.t) (e : Element)
  : option ListArticle.t :=
  match listItem rt config e with
  | Ok a =>
    if nonEmpty (ListArticle.title a) && nonEmpty (ListArticle.url a)
    then Some a else None
  | Throw => None
  end.

(** An item whose link cannot be resolved: no descendant matches
    [linkSelector], or the first one that does has no [href]. *)
Definition noLink (config : WebsiteConfig.t) (e : Element) : Prop :=
  let sel := ListPageConfig.linkSelector (WebsiteConfig.listPage config) in
  query e sel = Ok None
  \/ exists l, query e sel = Ok (Some l) /\ getAttribute l (js "href") = Ok None.

End Observe.

(** ** The Pagination Resolver as the specification words it *)

Module PaginationSpec.
Import WebsiteConfig.

(** The integers from [startPage] to [maxPages] inclusive, increasing. *)
Definition pageRange (startPage maxPages : Z) : list Z :=
  List.map (fun k => startPage + Z.of_nat k)
    (seq 0 (Z.to_nat (maxPages + 1 - startPage))).

(** The pattern with its page placeholder substituted. *)
Definition substitutePage (urlPattern : jsstring) (i : Z) : jsstring :=
  replaceFirst urlPattern (js "{page}") (numberToString i).

(** The reference definition of the specification: [startPage] defaults
    to 1 when absent.  The specification names no default for [maxPages];
    1, the default of the code, is taken.  An empty pattern counts as no
    pattern. *)
Definition getPageUrls_spec (config : WebsiteConfig.t) : list jsstring :=
  match pagination config with
  | None => [url config]
  | Some p =>
    if negb (PaginationConfig.enabled p) then [url config]
    else match PaginationConfig.urlPattern p with
         | Some pat =>
           if nonEmpty pat then
             List.map (substitutePage pat)
               (pageRange (default 1 (PaginationConfig.startPage p))
                          (default 1 (PaginationConfig.maxPages p)))
           else [url config]
         | None => [url config]
         end
  end.

(** [maxPages] is set to 0. *)
Definition maxPagesIsZero (config : WebsiteConfig.t) : bool :=
  match pagination config with
  | Some p =>
    match PaginationConfig.maxPages p with
    | Some n => n =? 0
    | None => false
    end
  | None => false
  end.

(** The same with a [startPage] of 0 read as absent. *)
Definition getPageUrls_amended (config : WebsiteConfig.t) : list jsstring :=
  match pagination config with
  | None => [url config]
  | Some p =>
    if negb (PaginationConfig.enabled p) then [url config]
    else match PaginationConfig.urlPattern p with
         | Some pat =>
           if nonEmpty pat then
             List.map (substitutePage pat)
               (pageRange (numOr (PaginationConfig.startPage p) 1)
                          (default 1 (PaginationConfig.maxPages p)))
           else [url config]
         | None => [url config]
         end
  end.

End PaginationSpec.

(** ** A small site, a host date parser and a backend to run the code on *)

Module Sample.
Import CrawlerEngine AIService.

Definition strEqb (a b : jsstring) : bool :=
  (length a =? length b)%nat && startsWith a b.

(** An element with a text, no attribute and no descendant. *)
Definition textElement (t : jsstring) : Element :=
  mkElement (Ok (Some t)) (fun _ => Ok None) (fun _ => Ok []).

(** [<a href=...>] *)
Definition anchor (href : jsstring) : Element :=
  mkElement (Ok (Some []))
    (fun a => Ok (if strEqb a (js "href") then Some href else None))
    (fun _ => Ok []).

(** [<li class="item">title <a href=...></a></li>]; no anchor when [href]
    is [None]. *)
Definition item (title : jsstring) (href : option jsstring) : Element :=
  mkElement (Ok (Some title)) (fun _ => Ok None)
    (fun sel =>
       Ok (if strEqb sel (js "a")
           then match href with Some h => [anchor h] | None => [] end
           else [])).

Definition listPageOf (items : list Element) : Page :=
  mkPage (fun sel => Ok (if strEqb sel (js ".item") then items else [])) (Ok []).

(** A detail page with an optional [h1] and an optional [.body]. *)
Definition detailPageOf (h1 body : option jsstring) : Page :=
  mkPage
    (fun sel =>
       Ok (if strEqb sel (js "h1")
           then match h1 with Some t => [textElement t] | None => [] end
           else if strEqb sel (js ".body")
           then match body with Some t => [textElement t] | None => [] end
           else []))
    (Ok []).

(** A detail page on which every query throws. *)
Definition brokenPage : Page := mkPage (fun _ => Throw) Throw.

Definition fiveItems : list Element :=
  [ item (js "A1") (Some (js "/a1")); item (js "A2") (Some (js "/a2"));
    item (js "A3") (Some (js "/a3")); item (js "A4") (Some (js "/a4"));
    item (js "A5") (Some (js "/a5")) ].

Definition goodItems : list Element :=
  [ item (js "A2") (Some (js "/a2")); item (js "A3") (Some (js "/a3"));
    item (js "A4") (Some (js "/a4")); item (js "A5") (Some (js "/a5"));
    item (js "A1") (Some (js "/a1")) ].

Definition threeItems : list Element :=
  [ item (js "B1") (Some (js "/b1")); item (js "B2") None;
    item (js "B3") (Some (js "http://other/b3")) ].

(** The pages of the site; any other URL fails to load. *)
Definition site : list (jsstring * Page) :=
  [ (js "http://site/list", listPageOf fiveItems);
    (js "http://site/good", listPageOf goodItems);
    (js "http://site/three", listPageOf threeItems);
    (js "http://site/a1", detailPageOf None (Some (js "body one")));
    (js "http://site/a2", detailPageOf (Some (js " Title two ")) (Some (js "body two")));
    (js "http://site/a3", detailPageOf (Some (js "Title three")) (Some (js "body three")));
    (js "http://site/a4", detailPageOf (Some (js "Title four")) (Some (js "body four")));
    (js "http://site/a5", detailPageOf (Some (js "Title five")) None);
    (js "http://site/a6", detailPageOf (Some (js "  ")) (Some (js "body six")));
    (js "http://site/broken", brokenPage) ].

Fixpoint lookupPage (u : jsstring) (pages : list (jsstring * Page)) : option Page :=
  match pages with
  | [] => None
  | (k, p) :: r => if strEqb k u then Some p else lookupPage u r
  end.

(** A host that reads [Y-M-D] with unpadded fields, as V8 does, and
    nothing else. *)
Definition sampleHost (s : jsstring) : option Z :=
  match DateNormalizer.matchAt s with
  | Some (y, m, d) =>
    if strEqb s (y ++ js "-" ++ m ++ js "-" ++ d)
    then Some (dayOfCivil (digitsVal y) (digitsVal m) (digitsVal d))
    else None
  | None => None
  end.

Definition sampleRuntime : Runtime :=
  mkRuntime unit
    (fun u w => (match lookupPage u site with
                 | Some p => Rendered p
                 | None => NavigationError
                 end, w))
    (fun _ => 20000)
    (fun href base => Ok (base ++ href))
    (fun _ _ => Ok None)
    sampleHost.

Definition sampleConfig (listUrl : jsstring) (maxArticles : option Z)
  : WebsiteConfig.t :=
  WebsiteConfig.mk (js "demo") (js "http://site") listUrl
    (ListPageConfig.mk (js ".item") None (js "a") None None)
    (DetailPageConfig.mk (js "h1") (js ".body") None None None)
    None None None maxArticles None.

Definition paginated (maxPages startPage : option Z) : WebsiteConfig.t :=
  WebsiteConfig.mk (js "demo") (js "http://site") (js "http://site/list")
    (ListPageConfig.mk (js ".item") None (js "a") None None)
    (DetailPageConfig.mk (js "h1") (js ".body") None None None)
    (Some (PaginationConfig.mk true maxPages None
             (Some (js "http://site/list?p={page}")) startPage))
    None None None None.

(** A backend that answers every prompt with the same text. *)
Definition sampleBackend : Backend :=
  mkBackend unit (fun _ n => (ReplyText (js " a summary "), n)) (fun _ => js "date").

Definition sampleArticle (url : jsstring) (content : option jsstring) : Article.t :=
  Article.mk (js "T") url (js "demo") content None None 20000.

End Sample.

(** ** The pages a run has the runtime open *)

Module Navigation.
Import CrawlerEngine Sample.

(** The URL a call of [crawl] was made with. *)
Definition eventUrl (e : Event) : jsstring :=
  match e with
  | ListPageCrawled pageUrl _ => pageUrl
  | DetailPageCrawled articleUrl _ => articleUrl
  end.

(** The world after the runtime has opened the pages at [urls], one after
    the other. *)
Fixpoint openAll (rt : Runtime) (urls : list jsstring) (w : World rt)
  : World rt :=
  match urls with
  | [] => w
  | u :: rest => openAll rt rest (snd (openPage rt u w))
  end.

(** The URLs of the candidates on the list page at [pageUrl], as the
    runtime renders it from [w]; none when the page does not load. *)
Definition candidatesOf (rt : Runtime) (config : WebsiteConfig.t)
  (pageUrl : jsstring) (w : World rt) : list jsstring :=
  match fst (openPage rt pageUrl w) with
  | Rendered page => List.map ListArticle.url (extractList rt config page)
  | NavigationError => []
  | SessionError => []
  end.

(** Every list page of [pageUrls], each followed by all of its candidates:
    the pages to open from [w] when nothing is left out, in order.  The
    candidates of a list page are those it shows once the pages before it
    have been opened. *)
Fixpoint fullVisit (rt : Runtime) (config : WebsiteConfig.t)
  (pageUrls : list jsstring) (w : World rt) : list jsstring :=
  match pageUrls with
  | [] => []
  | pageUrl :: rest =>
    let candidates := candidatesOf rt config pageUrl w in
    let w' := openAll rt candidates (snd (openPage rt pageUrl w)) in
    pageUrl :: candidates ++ fullVisit rt config rest w'
  end.

(** The sample site behind a runtime whose world is the journal of the
    pages it was asked to open. *)
Definition journalRuntime : Runtime :=
  mkRuntime (list jsstring)
    (fun u w => (match lookupPage u site with
                 | Some p => Rendered p
                 | None => NavigationError
                 end, w ++ [u]))
    (fun _ => 20000)
    (fun href base => Ok (base ++ href))
    (fun _ _ => Ok None)
    sampleHost.

End Navigation.


(* ===================================================================== *)
(** * Part II. Properties                                                 *)
(* ===================================================================== *)

Import CrawlerEngine Observe PaginationSpec Sample.

(** ** Literals *)

Example js_literal_ascii : js "{page}" = [123; 112; 97; 103; 101; 125]%N.
Proof. reflexivity. Qed.

Example js_literal_cjk : js "年月日：·" = [24180; 26376; 26085; 65306; 183]%N.
Proof. reflexivity. Qed.

Example numberToString_examples :
  numberToString 0 = js "0" /\ numberToString 12 = js "12"
  /\ numberToString (-3) = js "-3".
Proof. repeat split; reflexivity. Qed.

Example dayOfCivil_epoch : dayOfCivil 1970 1 1 = 0 /\ dayOfCivil 2024 3 5 = 19787.
Proof. split; reflexivity. Qed.

(** ** Pagination Resolver *)

Section PaginationProofs.

Lemma pageRange_nil (i maxPages : Z) : maxPages < i -> pageRange i maxPages = [].
Proof.
  intros H. unfold pageRange.
  replace (Z.to_nat (maxPages + 1 - i)) with O by lia. reflexivity.
Qed.

Lemma pageRange_cons (i maxPages : Z) :
  i <= maxPages -> pageRange i maxPages = i :: pageRange (i + 1) maxPages.
Proof.
  intros H. unfold pageRange.
  replace (Z.to_nat (maxPages + 1 - i))
    with (S (Z.to_nat (maxPages + 1 - (i + 1)))) by lia.
  cbn [seq List.map]. f_equal; [lia |].
  rewrite <- seq_shift, List.map_map.
  apply List.map_ext. intros k. lia.
Qed.

(** The loop, given fuel for all its iterations, appends the substituted
    pattern for every page of the range; fuel beyond that changes
    nothing, so the loop ends by its test. *)
Lemma pageUrlLoop_range (fuel : nat) :
  forall (i maxPages : Z) (pat : jsstring) (urls : list jsstring),
    (Z.to_nat (maxPages + 1 - i) <= fuel)%nat ->
    pageUrlLoop fuel i maxPages pat urls
    = urls ++ List.map (substitutePage pat) (pageRange i maxPages).
Proof.
  induction fuel as [| fuel IH]; intros i maxPages pat urls Hfuel; cbn [pageUrlLoop].
  - rewrite pageRange_nil by lia. cbn. now rewrite app_nil_r.
  - destruct (Z.leb_spec i maxPages) as [Hle | Hgt].
    + rewrite IH by lia. rewrite (pageRange_cons i maxPages Hle).
      cbn [List.map]. rewrite <- app_assoc. reflexivity.
    + rewrite pageRange_nil by lia. cbn. now rewrite app_nil_r.
Qed.

(** C4, the claim as stated fails: with [startPage] set to 0 the code
    starts at page 1 (0 is falsy in [startPage || 1]) where the reference
    definition of the claim starts at page 0. *)
Lemma getPageUrls_startPage_zero_differs :
  getPageUrls (paginated (Some 2) (Some 0))
  = [js "http://site/list?p=1"; js "http://site/list?p=2"]
  /\ getPageUrls_spec (paginated (Some 2) (Some 0))
    = [js "http://site/list?p=0"; js "http://site/list?p=1";
       js "http://site/list?p=2"]
  /\ getPageUrls (paginated (Some 2) (Some 0))
    <> getPageUrls_spec (paginated (Some 2) (Some 0)).
Proof.
  split; [reflexivity |]. split; [reflexivity |].
  intros H. apply (f_equal (@length jsstring)) in H. vm_compute in H.
  discriminate H.
Qed.

(** C4, amended: [getPageUrls] is [[config.url]] when pagination is absent
    or disabled or has no (or an empty) URL pattern, and otherwise the
    pattern with the first ["{page}"] replaced by each integer from
    [startPage] to [maxPages] inclusive, in increasing order, where
    [startPage] counts as 1 when it is absent or 0 and [maxPages] counts
    as 1 when it is absent.  A [maxPages] of 0 is left out. *)
Theorem getPageUrls_refines_amended (config : WebsiteConfig.t) :
  maxPagesIsZero config = false ->
  getPageUrls config = getPageUrls_amended config.
Proof.
  unfold maxPagesIsZero, getPageUrls, getPageUrls_amended.
  destruct (WebsiteConfig.pagination config) as [p |]; [| reflexivity].
  intros Hmax.
  destruct (PaginationConfig.enabled p); cbn [negb]; [| reflexivity].
  destruct (PaginationConfig.urlPattern p) as [pat |]; cbn [truthy]; [| reflexivity].
  destruct pat as [| c pat]; cbn [nonEmpty orDefault]; [reflexivity |].
  rewrite pageUrlLoop_range by lia. cbn [app].
  destruct (PaginationConfig.maxPages p) as [n |]; cbn [numOr default]; [| reflexivity].
  rewrite Hmax. reflexivity.
Qed.

Lemma getPageUrls_refines_amended_witness :
  maxPagesIsZero (paginated (Some 3) (Some 0)) = false
  /\ getPageUrls (paginated (Some 3) (Some 0))
    = getPageUrls_amended (paginated (Some 3) (Some 0)).
Proof.
  split; [reflexivity |].
  apply (getPageUrls_refines_amended (paginated (Some 3) (Some 0))).
  reflexivity.
Defined.

(** The testable properties of the specification on the resolver. *)
Lemma getPageUrls_disabled (config : WebsiteConfig.t) :
  (forall p, WebsiteConfig.pagination config = Some p ->
             PaginationConfig.enabled p = false) ->
  getPageUrls config = [WebsiteConfig.url config].
Proof.
  intros H. unfold getPageUrls.
  destruct (WebsiteConfig.pagination config) as [p |]; [| reflexivity].
  now rewrite (H p eq_refl).
Qed.

Example getPageUrls_three_pages :
  getPageUrls (paginated (Some 3) (Some 1))
  = [js "http://site/list?p=1"; js "http://site/list?p=2";
     js "http://site/list?p=3"].
Proof. reflexivity. Qed.

End PaginationProofs.

(** ** Date Normalizer *)

Section DateProofs.
Variable host : jsstring -> option Z.

Lemma parseDate_absent : DateNormalizer.parseDate host None = None.
Proof. reflexivity. Qed.

Lemma parseDate_empty : DateNormalizer.parseDate host (Some []) = None.
Proof. reflexivity. Qed.

(** The generic step checks what it returns: when the strict pattern does
    not match, the result is a valid date or none. *)
Lemma parseDate_generic_valid (s : jsstring) :
  DateNormalizer.strictMatch (DateNormalizer.cleanDate s) = None ->
  DateNormalizer.parseDate host (Some s) = None
  \/ exists day, DateNormalizer.parseDate host (Some s) = Some (ValidDate day).
Proof.
  intros Hno. unfold DateNormalizer.parseDate.
  destruct s as [| c s]; [left; reflexivity |].
  cbn [truthy nonEmpty negb orDefault]. rewrite Hno.
  destruct (newDate host _) as [day |]; cbn [isValid]; eauto.
Qed.

(** C5, the code at the failing input: the strict pattern matches
    ["2024-13-45"], and the [Date] built from its groups is returned
    without the validity test of the generic step; month 13 is out of
    bounds, so it is an invalid date. *)
Theorem parseDate_strict_match_returns_invalid_date :
  DateNormalizer.strictMatch (DateNormalizer.cleanDate (js "2024-13-45"))
  = Some (js "2024", js "13", js "45")
  /\ DateNormalizer.parseDate host (Some (js "2024-13-45")) = Some InvalidDate.
Proof. split; reflexivity. Qed.

(** C6: ["2024年3月5日"] is read as 2024-03-05 and ["发布时间：2023-11-02 ·"],
    cleaned to ["2023-11-02"], as 2023-11-02; ["not a date"] gives no
    date.  The first string reaches the host as ["2024-3-5"], which is not
    in the format ECMAScript fixes, and the third as it is: the host is
    taken to read the one as V8 does and to reject the other. *)
Theorem parseDate_examples :
  host (js "2024-3-5") = Some (dayOfCivil 2024 3 5) ->
  host (js "not a date") = None ->
  DateNormalizer.parseDate host (Some (js "2024年3月5日"))
  = Some (ValidDate (dayOfCivil 2024 3 5))
  /\ DateNormalizer.cleanDate (js "发布时间：2023-11-02 ·") = js "2023-11-02"
  /\ DateNormalizer.parseDate host (Some (js "发布时间：2023-11-02 ·"))
    = Some (ValidDate (dayOfCivil 2023 11 2))
  /\ DateNormalizer.parseDate host (Some (js "not a date")) = None.
Proof.
  intros Hymd Hnot.
  assert (H1 : DateNormalizer.parseDate host (Some (js "2024年3月5日"))
               = Some (newDate host (js "2024-3-5"))) by reflexivity.
  assert (H3 : DateNormalizer.parseDate host (Some (js "not a date"))
               = (let date := newDate host (js "not a date") in
                  if isValid date then Some date else None)) by reflexivity.
  rewrite H1, H3. unfold newDate.
  change (isoDateOnly (js "2024-3-5")) with NotIsoDateOnly.
  change (isoDateOnly (js "not a date")) with NotIsoDateOnly.
  cbv iota beta zeta. rewrite Hymd, Hnot.
  repeat split; reflexivity.
Qed.

End DateProofs.

Lemma parseDate_examples_witness :
  sampleHost (js "2024-3-5") = Some (dayOfCivil 2024 3 5)
  /\ sampleHost (js "not a date") = None
  /\ DateNormalizer.parseDate sampleHost (Some (js "2024年3月5日"))
    = Some (ValidDate 19787).
Proof.
  split; [reflexivity |]. split; [reflexivity |].
  apply (parseDate_examples sampleHost); reflexivity.
Defined.

(** ** List Extractor *)

Section ListProofs.
Variable rt : Runtime.
Variable config : WebsiteConfig.t.

Lemma listLoop_emitted (els : list Element) :
  forall acc, listLoop rt config els acc = acc ++ omap (emitted rt config) els.
Proof.
  induction els as [| e els IH]; intros acc; cbn [listLoop omap list_omap].
  - now rewrite app_nil_r.
  - unfold emitted at 1.
    destruct (listItem rt config e) as [a |]; [| apply IH].
    destruct (nonEmpty (ListArticle.title a) && nonEmpty (ListArticle.url a)).
    + rewrite IH, <- app_assoc. reflexivity.
    + apply IH.
Qed.

Lemma emitted_nonEmpty (e : Element) (a : ListArticle.t) :
  emitted rt config e = Some a ->
  ListArticle.title a <> [] /\ ListArticle.url a <> [].
Proof.
  unfold emitted. destruct (listItem rt config e) as [a' |]; [| discriminate].
  destruct (ListArticle.title a') as [| c t] eqn:Ht;
    destruct (ListArticle.url a') as [| d u] eqn:Hu; cbn; try discriminate.
  intros [= <-]. rewrite Ht, Hu. split; discriminate.
Qed.

Lemma listItemUrl_noLink (e : Element) :
  noLink config e -> listItemUrl rt config e = Ok [].
Proof.
  unfold noLink, listItemUrl.
  intros [Hq | [l [Hq Hhref]]]; rewrite Hq; unfold mbind, result_bind;
    [reflexivity |].
  rewrite Hhref. reflexivity.
Qed.

Lemma emitted_noLink (e : Element) : noLink config e -> emitted rt config e = None.
Proof.
  intros Hno. unfold emitted, listItem.
  rewrite (listItemUrl_noLink e Hno).
  destruct (if truthy _ then _ else _) as [t |]; cbn; [| reflexivity].
  now rewrite andb_false_r.
Qed.

Lemma omap_length_filter (els : list Element) :
  length (omap (emitted rt config) els)
  = length (filter (fun e => is_Some (emitted rt config e)) els).
Proof.
  induction els as [| e els IH]; [reflexivity |].
  cbn [omap list_omap]. rewrite filter_cons.
  destruct (emitted rt config e) as [a |] eqn:He.
  - rewrite decide_True by eauto. cbn. now rewrite IH.
  - rewrite decide_False by (intros [x Hx]; discriminate). exact IH.
Qed.


End ListProofs.


(** ** Detail Extractor *)

Section DetailProofs.
Variable rt : Runtime.
Variable config : WebsiteConfig.t.

(** The fallback to the title of the list item is in the [catch] of the
    title step: it is taken when the query or the reading of the text
    throws. *)
Lemma detailTitle_on_throw (page : Page) (la : ListArticle.t) :
  pageQuery page (DetailPageConfig.titleSelector (WebsiteConfig.detailPage config)) = Throw
  \/ (exists el,
        pageQuery page (DetailPageConfig.titleSelector (WebsiteConfig.detailPage config))
        = Ok (Some el) /\ trimmedText el = Throw) ->
  ListArticle.title la <> [] ->
  detailTitle config page (Some la) = ListArticle.title la.
Proof.
  unfold detailTitle. intros [Hq | [el [Hq Ht]]] Hne; rewrite Hq; [| rewrite Ht];
    cbn; destruct (ListArticle.title la); cbn; congruence.
Qed.

(** It is not taken when the query finds no element, or an element whose
    text is empty: the title stays empty. *)
Lemma detailTitle_on_empty (page : Page) (la : option ListArticle.t) :
  pageQuery page (DetailPageConfig.titleSelector (WebsiteConfig.detailPage config)) = Ok None
  \/ (exists el,
        pageQuery page (DetailPageConfig.titleSelector (WebsiteConfig.detailPage config))
        = Ok (Some el) /\ trimmedText el = Ok []) ->
  detailTitle config page la = [].
Proof.
  unfold detailTitle. intros [Hq | [el [Hq Ht]]]; rewrite Hq; [| rewrite Ht];
    reflexivity.
Qed.

(** In selector mode an open page always gives an article. *)
Lemma crawlDetailPage_selector_mode (articleUrl : jsstring)
  (listArticle : option ListArticle.t) (w w' : World rt) (page : Page) :
  openPage rt articleUrl w = (Rendered page, w') ->
  flag (DetailPageConfig.useReadability (WebsiteConfig.detailPage config)) = false ->
  exists a,
    crawlDetailPage rt config articleUrl listArticle w = (Ok (Some a), w')
    /\ Article.title a = detailTitle config page listArticle
    /\ Article.content a = selectorContent config page.
Proof.
  intros Hopen Hmode. unfold crawlDetailPage, extractDetail, detailContent.
  rewrite Hopen, Hmode. cbn. eauto.
Qed.

(** C8, amended: in selector mode the content is the (trimmed) text of the
    first element matching [contentSelector]; when no element matches, or
    the query or the reading of the text throws, the article is returned all
    the same and its content is left unset (absent, not the empty string);
    in Readability mode the result does not depend on [contentSelector]. *)
Theorem crawlDetailPage_content_modes (articleUrl : jsstring)
  (listArticle : option ListArticle.t) (w w' : World rt) (page : Page) :
  openPage rt articleUrl w = (Rendered page, w') ->
  let sel := DetailPageConfig.contentSelector (WebsiteConfig.detailPage config) in
  let mode := flag (DetailPageConfig.useReadability (WebsiteConfig.detailPage config)) in
  (mode = false ->
   exists a,
     crawlDetailPage rt config articleUrl listArticle w = (Ok (Some a), w')
     /\ (forall el c, pageQuery page sel = Ok (Some el) -> trimmedText el = Ok c ->
                      Article.content a = Some c)
     /\ (pageQuery page sel = Ok None -> Article.content a = None)
     /\ (pageQuery page sel = Throw -> Article.content a = None)
     /\ (forall el, pageQuery page sel = Ok (Some el) -> trimmedText el = Throw ->
                    Article.content a = None))
  /\ (mode = true ->
      forall sel',
        crawlDetailPage rt (WebsiteConfig.withContentSelector config sel')
          articleUrl listArticle w
        = crawlDetailPage rt config articleUrl listArticle w).
Proof.
  intros Hopen sel mode. split.
  - intros Hmode.
    destruct (crawlDetailPage_selector_mode articleUrl listArticle w w' page Hopen Hmode)
      as [a [Hrun [_ Hcontent]]].
    exists a. split; [exact Hrun |]. rewrite Hcontent. unfold selectorContent.
    fold sel. repeat split.
    + intros el c Hq Ht. now rewrite Hq, Ht.
    + intros Hq. now rewrite Hq.
    + intros Hq. now rewrite Hq.
    + intros el Hq Ht. now rewrite Hq, Ht.
  - intros Hmode sel'. subst mode.
    unfold crawlDetailPage, extractDetail, detailContent.
    cbn [WebsiteConfig.withContentSelector WebsiteConfig.detailPage
         DetailPageConfig.useReadability].
    rewrite Hmode. reflexivity.
Qed.

End DetailProofs.

(** C3, the code at two failing inputs.  On the first page no element
    matches the title selector; on the second the matching element has a
    blank text.  The candidate carries the title ["A1"], and the article
    comes back with an empty title. *)
Theorem crawlDetailPage_title_not_recovered :
  let config := sampleConfig (js "http://site/list") None in
  let candidate (u : jsstring) := ListArticle.mk (js "A1") u None None in
  (pageQuery (detailPageOf None (Some (js "body one"))) (js "h1") = Ok None
   /\ exists a,
       crawlDetailPage sampleRuntime config (js "http://site/a1")
         (Some (candidate (js "http://site/a1"))) tt = (Ok (Some a), tt)
       /\ Article.title a = []
       /\ Article.title a <> ListArticle.title (candidate (js "http://site/a1")))
  /\ (exists a,
       crawlDetailPage sampleRuntime config (js "http://site/a6")
         (Some (candidate (js "http://site/a6"))) tt = (Ok (Some a), tt)
       /\ Article.title a = []
       /\ Article.title a <> ListArticle.title (candidate (js "http://site/a6"))).
Proof.
  cbv zeta. split; [split; [reflexivity |] |].
  - eexists. split; [vm_compute; reflexivity |].
    split; [reflexivity | discriminate].
  - eexists. split; [vm_compute; reflexivity |].
    split; [reflexivity | discriminate].
Qed.

(** The fallback does work when the query throws. *)
Example crawlDetailPage_title_recovered_on_throw :
  exists a,
    crawlDetailPage sampleRuntime (sampleConfig (js "http://site/list") None)
      (js "http://site/broken")
      (Some (ListArticle.mk (js "A1") (js "http://site/broken") None None)) tt
    = (Ok (Some a), tt)
    /\ Article.title a = js "A1" /\ Article.content a = None.
Proof. eexists. split; [vm_compute; reflexivity |]. split; reflexivity. Qed.

(** C8, the claim as stated fails: in selector mode, on a page where no
    element matches [contentSelector], the article has no content at all,
    which is not the empty string. *)
Lemma crawlDetailPage_content_unset_not_empty :
  pageQuery (detailPageOf (Some (js "Title five")) None) (js ".body") = Ok None
  /\ exists a,
      crawlDetailPage sampleRuntime (sampleConfig (js "http://site/list") None)
        (js "http://site/a5") None tt = (Ok (Some a), tt)
      /\ Article.content a = None
      /\ Article.content a <> Some [].
Proof.
  split; [reflexivity |]. eexists.
  split; [vm_compute; reflexivity |]. split; [reflexivity | discriminate].
Qed.

Lemma crawlDetailPage_content_modes_witness :
  openPage sampleRuntime (js "http://site/a5") tt
  = (Rendered (detailPageOf (Some (js "Title five")) None), tt)
  /\ flag (DetailPageConfig.useReadability
             (WebsiteConfig.detailPage (sampleConfig (js "http://site/list") None)))
    = false
  /\ exists a,
      crawlDetailPage sampleRuntime (sampleConfig (js "http://site/list") None)
        (js "http://site/a5") None tt = (Ok (Some a), tt).
Proof.
  split; [reflexivity |]. split; [reflexivity |].
  destruct (crawlDetailPage_content_modes sampleRuntime
              (sampleConfig (js "http://site/list") None)
              (js "http://site/a5") None tt tt
              (detailPageOf (Some (js "Title five")) None) eq_refl)
    as [Hsel _].
  destruct (Hsel eq_refl) as [a [Hrun _]].
  exists a. exact Hrun.
Defined.

(** ** Crawl Orchestrator *)

Section TraceLemmas.

Lemma produced_app (t1 t2 : list Event) :
  produced (t1 ++ t2) = produced t1 ++ produced t2.
Proof.
  induction t1 as [| [u r | u [[a |] |]] t1 IH]; cbn; congruence.
Qed.

Lemma listPagesVisited_app (t1 t2 : list Event) :
  listPagesVisited (t1 ++ t2) = listPagesVisited t1 ++ listPagesVisited t2.
Proof. induction t1 as [| [u r | u r] t1 IH]; cbn; congruence. Qed.

Lemma detailPagesFetched_app (t1 t2 : list Event) :
  detailPagesFetched (t1 ++ t2) = detailPagesFetched t1 ++ detailPagesFetched t2.
Proof. induction t1 as [| [u r | u r] t1 IH]; cbn; congruence. Qed.

Lemma candidatesFound_app (t1 t2 : list Event) :
  candidatesFound (t1 ++ t2) = candidatesFound t1 ++ candidatesFound t2.
Proof.
  induction t1 as [| [u [l |] | u r] t1 IH]; cbn; rewrite <- ?app_assoc; congruence.
Qed.

Lemma accumulated_app (t1 t2 : list Event) :
  accumulated (t1 ++ t2) = accumulated t1 + accumulated t2.
Proof.
  unfold accumulated. rewrite produced_app, filter_app, length_app. lia.
Qed.

Lemma accumulated_nonneg (t : list Event) : 0 <= accumulated t.
Proof. unfold accumulated. lia. Qed.

(** What one detail-page event adds to the batch. *)
Lemma accumulate_event (all : list Article.t) (u : jsstring)
  (article : option Article.t) :
  accumulate all article
  = all ++ filter (fun a => complete a = true)
             (produced [DetailPageCrawled u (Ok article)]).
Proof.
  destruct article as [a |]; cbn [produced accumulate isComplete].
  - rewrite filter_cons, filter_nil. unfold complete.
    destruct (nonEmpty (Article.title a) && truthy (Article.content a)).
    + now rewrite decide_True.
    + rewrite decide_False by discriminate. now rewrite app_nil_r.
  - now rewrite filter_nil, app_nil_r.
Qed.

(** An event found in a trace that ends with [ev] is [ev] itself or lies
    before it. *)
Lemma split_snoc (evs t1 t2 : list Event) (ev e : Event) :
  evs ++ [ev] = t1 ++ e :: t2 ->
  (t1 = evs /\ e = ev /\ t2 = [])
  \/ exists t2', t2 = t2' ++ [ev] /\ evs = t1 ++ e :: t2'.
Proof.
  destruct t2 as [| x t2 _] using rev_ind; intros H.
  - left. apply app_inj_tail in H. destruct H as [-> ->]. auto.
  - right. exists t2.
    change (t1 ++ e :: t2 ++ [x]) with (t1 ++ (e :: t2) ++ [x]) in H.
    rewrite app_assoc in H. apply app_inj_tail in H. destruct H as [-> ->]. auto.
Qed.

End TraceLemmas.

Section CrawlProofs.
Variable rt : Runtime.
Variable config : WebsiteConfig.t.

(** *** The batch is the complete articles among those produced *)

Lemma detailLoop_appends (items : list ListArticle.t) :
  forall (st st' : LoopState rt) (ok : bool),
    detailLoop rt config items st = (ok, st') ->
    exists new,
      events st' = events st ++ new
      /\ allArticles st'
         = allArticles st ++ filter (fun a => complete a = true) (produced new)
      /\ listPagesVisited new = [] /\ candidatesFound new = [].
Proof.
  induction items as [| la items IH]; intros st st' ok; cbn [detailLoop].
  - intros [= <- <-]. exists []. cbn. now rewrite !app_nil_r.
  - destruct (capReached config (allArticles st)).
    { intros [= <- <-]. exists []. cbn. now rewrite !app_nil_r. }
    destruct (crawlDetailPage rt config (ListArticle.url la) (Some la) (world st))
      as [[article |] w'].
    + intros Hrun. apply IH in Hrun. cbn [events allArticles] in Hrun.
      destruct Hrun as [new [Hev [Hall [Hlp Hcf]]]].
      exists (DetailPageCrawled (ListArticle.url la) (Ok article) :: new).
      rewrite Hev, Hall, (accumulate_event _ (ListArticle.url la)).
      change (?e :: new) with ([e] ++ new).
      rewrite produced_app, filter_app, listPagesVisited_app, candidatesFound_app,
        Hlp, Hcf, <- !app_assoc.
      auto.
    + intros [= <- <-]. cbn [events allArticles].
      exists [DetailPageCrawled (ListArticle.url la) Throw]. cbn.
      rewrite ?filter_nil, ?app_nil_r. auto.
Qed.

Lemma pageLoop_appends (pageUrls : list jsstring) :
  forall (st st' : LoopState rt) (ok : bool),
    pageLoop rt config pageUrls st = (ok, st') ->
    exists new,
      events st' = events st ++ new
      /\ allArticles st'
         = allArticles st ++ filter (fun a => complete a = true) (produced new).
Proof.
  induction pageUrls as [| u pageUrls IH]; intros st st' ok; cbn [pageLoop].
  - intros [= <- <-]. exists []. cbn. now rewrite !app_nil_r.
  - destruct (capReached config (allArticles st)).
    { intros [= <- <-]. exists []. cbn. now rewrite !app_nil_r. }
    destruct (crawlListPage rt config u (world st)) as [[items |] w'].
    + destruct (detailLoop rt config items _) as [ok1 st1] eqn:Hdetail.
      apply detailLoop_appends in Hdetail. cbn [events allArticles] in Hdetail.
      destruct Hdetail as [new1 [Hev1 [Hall1 _]]].
      assert (Hjoin : events st1 = events st ++ ListPageCrawled u (Ok items) :: new1
                      /\ allArticles st1
                         = allArticles st
                           ++ filter (fun a => complete a = true)
                                (produced (ListPageCrawled u (Ok items) :: new1))).
      { rewrite Hev1, Hall1, <- app_assoc. auto. }
      clear Hev1 Hall1. destruct Hjoin as [Hev1 Hall1].
      destruct ok1.
      * intros Hrun. apply IH in Hrun. destruct Hrun as [new2 [Hev2 Hall2]].
        exists (ListPageCrawled u (Ok items) :: new1 ++ new2).
        rewrite Hev2, Hall2, Hev1, Hall1.
        change (?e :: new1 ++ new2) with ((e :: new1) ++ new2).
        rewrite produced_app, filter_app, <- !app_assoc. auto.
      * intros [= <- <-]. eauto.
    + intros [= <- <-]. cbn [events allArticles].
      exists [ListPageCrawled u Throw]. cbn. rewrite ?filter_nil, ?app_nil_r. auto.
Qed.

Lemma complete_fields (a : Article.t) :
  complete a = true <->
  Article.title a <> [] /\ exists c, Article.content a = Some c /\ c <> [].
Proof.
  unfold complete.
  destruct (Article.title a) as [| x t]; destruct (Article.content a) as [[| y c] |];
    cbn; split;
    try discriminate;
    try (intros [Ht _]; congruence);
    try (intros [_ [c0 [Hc Hne]]]; inversion Hc; subst; congruence);
    try reflexivity.
  intros _. split; [discriminate |].
  eexists. split; [reflexivity | discriminate].
Qed.

(** C1: the batch [crawl()] returns is, in order, the articles produced by
    its detail-page extractions whose title and content are both non-empty:
    every article of the batch has both, and a produced article is in the
    batch if and only if it has both. *)
Theorem crawl_accumulates_iff_complete (w : World rt) (b : list Article.t) :
  batch (crawl rt config w) = Ok b ->
  b = filter (fun a => complete a = true) (produced (trace (crawl rt config w)))
  /\ Forall (fun a => Article.title a <> []
                      /\ exists c, Article.content a = Some c /\ c <> []) b
  /\ (forall a, a ∈ produced (trace (crawl rt config w)) ->
                (a ∈ b <->
                 Article.title a <> []
                 /\ exists c, Article.content a = Some c /\ c <> [])).
Proof.
  unfold crawl.
  destruct (pageLoop rt config (getPageUrls config) (mkLoopState [] w []))
    as [ok st] eqn:Hrun.
  apply pageLoop_appends in Hrun. cbn [events allArticles app] in Hrun.
  destruct Hrun as [new [Hev Hall]]. cbn [batch trace].
  destruct ok; [| discriminate]. intros [= <-].
  rewrite Hev, Hall. split; [reflexivity |]. split.
  - apply Forall_forall. intros a Ha.
    apply list_elem_of_filter in Ha. now apply complete_fields.
  - intros a Ha. rewrite list_elem_of_filter, complete_fields. tauto.
Qed.

End CrawlProofs.

Lemma crawl_accumulates_iff_complete_witness :
  exists b,
    batch (crawl sampleRuntime (sampleConfig (js "http://site/list") None) tt) = Ok b
    /\ length b = 3%nat
    /\ length (produced (trace (crawl sampleRuntime
                                  (sampleConfig (js "http://site/list") None) tt)))
      = 5%nat
    /\ Forall (fun a => Article.title a <> []
                        /\ exists c, Article.content a = Some c /\ c <> []) b.
Proof.
  eexists. split; [vm_compute; reflexivity |].
  split; [reflexivity |]. split; [reflexivity |].
  eapply (crawl_accumulates_iff_complete sampleRuntime
            (sampleConfig (js "http://site/list") None) tt).
  vm_compute. reflexivity.
Defined.

(** *** The cap *)

Section CapProofs.
Variable rt : Runtime.
Variable config : WebsiteConfig.t.
Variable m : Z.
Hypothesis Hcap : WebsiteConfig.maxArticles config = Some m.
Hypothesis Hpos : 0 < m.

Lemma capReached_false (all : list Article.t) :
  capReached config all = false -> Z.of_nat (length all) < m.
Proof using Hcap Hpos.
  unfold capReached. rewrite Hcap.
  destruct (Z.eqb_spec m 0) as [-> | _]; [lia |]. cbn [negb andb].
  intros H. apply Z.leb_gt in H. exact H.
Qed.

Lemma accumulated_one (u : jsstring) (article : option Article.t) :
  0 <= accumulated [DetailPageCrawled u (Ok article)] <= 1.
Proof.
  unfold accumulated. destruct article as [a |]; cbn [produced].
  - pose proof (length_filter (fun a => complete a = true) [a]) as H.
    cbn [length] in H. lia.
  - cbn. lia.
Qed.

Lemma accumulated_detail_throw (u : jsstring) :
  accumulated [DetailPageCrawled u Throw] = 0.
Proof. reflexivity. Qed.

Lemma accumulated_list_page (u : jsstring) (r : result (list ListArticle.t)) :
  accumulated [ListPageCrawled u r] = 0.
Proof. reflexivity. Qed.

(** One more call keeps the invariant when it is made below the cap. *)
Lemma capInvariant_step (all all' : list Article.t) (w w' : World rt)
  (evs : list Event) (ev : Event) :
  capInvariant m (mkLoopState all w evs) ->
  Z.of_nat (length all) < m ->
  Z.of_nat (length all') = Z.of_nat (length all) + accumulated [ev] ->
  accumulated [ev] <= 1 ->
  capInvariant m (mkLoopState all' w' (evs ++ [ev])).
Proof.
  unfold capInvariant. cbn [allArticles events].
  intros [Hlen [Hle Hbefore]] Hlt Hlen' Hone.
  rewrite accumulated_app. repeat split; [lia | lia |].
  intros t1 e t2 Hsplit. apply split_snoc in Hsplit.
  destruct Hsplit as [[-> _] | [t2' [_ Hevs]]]; [lia |].
  exact (Hbefore t1 e t2' Hevs).
Qed.

Lemma detailLoop_capInvariant (items : list ListArticle.t) :
  forall (st st' : LoopState rt) (ok : bool),
    capInvariant m st ->
    detailLoop rt config items st = (ok, st') ->
    capInvariant m st'.
Proof using Hcap Hpos.
  induction items as [| la items IH]; intros st st' ok Hinv; cbn [detailLoop].
  - now intros [= <- <-].
  - destruct (capReached config (allArticles st)) eqn:Hreached.
    { now intros [= <- <-]. }
    apply capReached_false in Hreached. destruct st as [all w evs].
    cbn [allArticles world events] in *.
    destruct (crawlDetailPage rt config (ListArticle.url la) (Some la) w)
      as [[article |] w'].
    + apply IH.
      apply (capInvariant_step all _ w w' evs _ Hinv Hreached);
        [| apply accumulated_one].
      rewrite (accumulate_event all (ListArticle.url la)), length_app.
      unfold accumulated. lia.
    + intros [= <- <-].
      apply (capInvariant_step all _ w w' evs _ Hinv Hreached);
        rewrite accumulated_detail_throw; lia.
Qed.

Lemma pageLoop_capInvariant (pageUrls : list jsstring) :
  forall (st st' : LoopState rt) (ok : bool),
    capInvariant m st ->
    pageLoop rt config pageUrls st = (ok, st') ->
    capInvariant m st'.
Proof using Hcap Hpos.
  induction pageUrls as [| u pageUrls IH]; intros st st' ok Hinv; cbn [pageLoop].
  - now intros [= <- <-].
  - destruct (capReached config (allArticles st)) eqn:Hreached.
    { now intros [= <- <-]. }
    apply capReached_false in Hreached. destruct st as [all w evs].
    cbn [allArticles world events] in *.
    destruct (crawlListPage rt config u w) as [r w'].
    assert (Hinv1 : capInvariant m (mkLoopState all w' (evs ++ [ListPageCrawled u r]))).
    { apply (capInvariant_step all _ w w' evs _ Hinv Hreached);
        rewrite accumulated_list_page; lia. }
    destruct r as [items |]; [| now intros [= <- <-]].
    destruct (detailLoop rt config items _) as [ok1 st1] eqn:Hdetail.
    apply (detailLoop_capInvariant items _ _ _ Hinv1) in Hdetail.
    destruct ok1; [apply IH; exact Hdetail | now intros [= <- <-]].
Qed.

End CapProofs.

(** C2, amended: with [maxArticles] set to a positive number, [crawl()]
    returns at most [maxArticles] articles, every list-page visit and every
    detail-page fetch of the run is made while fewer than [maxArticles]
    articles are accumulated, and nothing follows the point of the run at
    which [maxArticles] are. *)
Theorem crawl_respects_positive_cap (rt : Runtime) (config : WebsiteConfig.t)
  (m : Z) (w : World rt) :
  WebsiteConfig.maxArticles config = Some m ->
  0 < m ->
  (forall b, batch (crawl rt config w) = Ok b -> Z.of_nat (length b) <= m)
  /\ (forall t1 e t2, trace (crawl rt config w) = t1 ++ e :: t2 ->
                      accumulated t1 < m)
  /\ (forall t1 t2, trace (crawl rt config w) = t1 ++ t2 ->
                    m <= accumulated t1 -> t2 = []).
Proof.
  intros Hcap Hpos. unfold crawl.
  destruct (pageLoop rt config (getPageUrls config) (mkLoopState [] w []))
    as [ok st] eqn:Hrun.
  apply (pageLoop_capInvariant rt config m Hcap Hpos) in Hrun.
  2:{ unfold capInvariant. cbn [allArticles events].
      change (accumulated []) with 0. cbn [length].
      split; [reflexivity |]. split; [lia |].
      intros [| x t1] e t2 H; discriminate H. }
  destruct Hrun as [Hlen [Hle Hbefore]]. cbn [batch trace].
  repeat split.
  - destruct ok; [| discriminate]. intros b [= <-]. lia.
  - exact Hbefore.
  - intros t1 [| e t2] Hsplit Hfull; [reflexivity |].
    specialize (Hbefore t1 e t2 Hsplit). lia.
Qed.

Lemma crawl_respects_positive_cap_witness :
  WebsiteConfig.maxArticles (sampleConfig (js "http://site/good") (Some 2)) = Some 2
  /\ 0 < 2
  /\ (exists b,
        batch (crawl sampleRuntime (sampleConfig (js "http://site/good") (Some 2)) tt)
        = Ok b /\ Z.of_nat (length b) <= 2)
  /\ detailPagesFetched
       (trace (crawl sampleRuntime (sampleConfig (js "http://site/good") (Some 2)) tt))
     = [js "http://site/a2"; js "http://site/a3"].
Proof.
  split; [reflexivity |]. split; [lia |]. split; [| reflexivity].
  eexists. split; [vm_compute; reflexivity |].
  apply (crawl_respects_positive_cap sampleRuntime
           (sampleConfig (js "http://site/good") (Some 2)) 2 tt);
    [reflexivity | lia | vm_compute; reflexivity].
Defined.

(** C2, the claim as stated fails.  With [maxArticles] set to 0 the run on
    the list page of five candidates returns three articles, more than 0.
    (And with [maxArticles] set to 2 on the same page, whose first candidate
    gives an article without a title, the third detail page is fetched: the
    count is of accumulated articles, not of candidates.) *)
Lemma crawl_cap_zero_returns_articles :
  WebsiteConfig.maxArticles (sampleConfig (js "http://site/list") (Some 0)) = Some 0
  /\ (exists b,
        batch (crawl sampleRuntime (sampleConfig (js "http://site/list") (Some 0)) tt)
        = Ok b /\ length b = 3%nat /\ ~ (Z.of_nat (length b) <= 0))
  /\ length (extractList sampleRuntime (sampleConfig (js "http://site/list") (Some 2))
               (listPageOf fiveItems)) = 5%nat
  /\ detailPagesFetched
       (trace (crawl sampleRuntime (sampleConfig (js "http://site/list") (Some 2)) tt))
     = [js "http://site/a1"; js "http://site/a2"; js "http://site/a3"].
Proof.
  split; [reflexivity |]. split; [| split; reflexivity].
  eexists. split; [vm_compute; reflexivity |]. split; [reflexivity |].
  cbn. lia.
Qed.

(** *** No cap *)

Import Navigation.

Section NoCapProofs.
Variable rt : Runtime.
Variable config : WebsiteConfig.t.

Lemma capReached_uncapped (all : list Article.t) :
  uncapped config -> capReached config all = false.
Proof. unfold uncapped, capReached. intros [-> | ->]; reflexivity. Qed.

(** When the cap test succeeds, a cap is set and it is not 0. *)
Lemma capReached_true (all : list Article.t) :
  capReached config all = true <->
  exists m, WebsiteConfig.maxArticles config = Some m
            /\ m <> 0 /\ m <= Z.of_nat (length all).
Proof.
  unfold capReached. destruct (WebsiteConfig.maxArticles config) as [m |].
  - destruct (Z.eqb_spec m 0) as [-> | Hne]; cbn [negb andb].
    + split; [discriminate | intros [m [[= <-] [H _]]]; congruence].
    + rewrite Z.leb_le. split; [eauto |]. now intros [m' [[= <-] [_ H]]].
  - split; [discriminate | intros [m [[=] _]]].
Qed.

Lemma openAll_app (l1 l2 : list jsstring) (w : World rt) :
  openAll rt (l1 ++ l2) w = openAll rt l2 (openAll rt l1 w).
Proof. revert w. induction l1 as [| u l1 IH]; intros w; cbn; auto. Qed.

(** Each of the two page methods has the runtime open its URL, once. *)
Lemma crawlListPage_opens (pageUrl : jsstring) (w : World rt) :
  snd (crawlListPage rt config pageUrl w) = snd (openPage rt pageUrl w).
Proof.
  unfold crawlListPage. destruct (openPage rt pageUrl w) as [[| | page] w'];
    reflexivity.
Qed.

Lemma crawlDetailPage_opens (articleUrl : jsstring)
  (listArticle : option ListArticle.t) (w : World rt) :
  snd (crawlDetailPage rt config articleUrl listArticle w)
  = snd (openPage rt articleUrl w).
Proof.
  unfold crawlDetailPage. destruct (openPage rt articleUrl w) as [[| | page] w'];
    reflexivity.
Qed.

(** The candidates [crawlListPage] returns are those of the page the
    runtime rendered. *)
Lemma crawlListPage_candidates (pageUrl : jsstring) (w : World rt)
  (items : list ListArticle.t) :
  fst (crawlListPage rt config pageUrl w) = Ok items ->
  List.map ListArticle.url items = candidatesOf rt config pageUrl w.
Proof.
  unfold crawlListPage, candidatesOf.
  destruct (openPage rt pageUrl w) as [[| | page] w']; cbn [fst];
    [discriminate | now intros [= <-] | now intros [= <-]].
Qed.

(** Whatever the cap and the outcome, the world a loop ends in is the one
    the runtime reaches by opening the URL of each call made, in order. *)
Lemma detailLoop_world (items : list ListArticle.t) :
  forall (st st' : LoopState rt) (ok : bool),
    detailLoop rt config items st = (ok, st') ->
    exists new,
      events st' = events st ++ new
      /\ world st' = openAll rt (List.map eventUrl new) (world st).
Proof.
  induction items as [| la items IH]; intros st st' ok; cbn [detailLoop].
  - intros [= <- <-]. exists []. now rewrite app_nil_r.
  - destruct (capReached config (allArticles st)).
    { intros [= <- <-]. exists []. now rewrite app_nil_r. }
    pose proof (crawlDetailPage_opens (ListArticle.url la) (Some la) (world st))
      as Hopen.
    destruct (crawlDetailPage rt config (ListArticle.url la) (Some la) (world st))
      as [[article |] w']; cbn [snd] in Hopen; subst w'.
    + intros Hrun. apply IH in Hrun. cbn [events world] in Hrun.
      destruct Hrun as [new [Hev Hw]].
      exists (DetailPageCrawled (ListArticle.url la) (Ok article) :: new).
      rewrite Hev, Hw, <- app_assoc. auto.
    + intros [= <- <-]. cbn [events world].
      exists [DetailPageCrawled (ListArticle.url la) Throw]. auto.
Qed.

Lemma pageLoop_world (pageUrls : list jsstring) :
  forall (st st' : LoopState rt) (ok : bool),
    pageLoop rt config pageUrls st = (ok, st') ->
    exists new,
      events st' = events st ++ new
      /\ world st' = openAll rt (List.map eventUrl new) (world st).
Proof.
  induction pageUrls as [| u pageUrls IH]; intros st st' ok; cbn [pageLoop].
  - intros [= <- <-]. exists []. now rewrite app_nil_r.
  - destruct (capReached config (allArticles st)).
    { intros [= <- <-]. exists []. now rewrite app_nil_r. }
    pose proof (crawlListPage_opens u (world st)) as Hopen.
    destruct (crawlListPage rt config u (world st)) as [[items |] w'];
      cbn [snd] in Hopen; subst w'.
    + destruct (detailLoop rt config items _) as [ok1 st1] eqn:Hdetail.
      apply detailLoop_world in Hdetail. cbn [events world] in Hdetail.
      destruct Hdetail as [new1 [Hev1 Hw1]].
      destruct ok1.
      * intros Hrun. apply IH in Hrun. destruct Hrun as [new2 [Hev2 Hw2]].
        exists (ListPageCrawled u (Ok items) :: new1 ++ new2).
        rewrite Hev2, Hw2, Hev1, Hw1, <- !app_assoc.
        cbn [List.map eventUrl openAll app]. rewrite List.map_app, openAll_app.
        auto.
      * intros [= <- <-]. exists (ListPageCrawled u (Ok items) :: new1).
        rewrite Hev1, Hw1, <- app_assoc. auto.
    + intros [= <- <-]. cbn [events world].
      exists [ListPageCrawled u Throw]. auto.
Qed.

(** Without a cap, a loop over candidates that is not interrupted calls
    [crawlDetailPage] on each of them. *)
Lemma detailLoop_uncapped (items : list ListArticle.t) :
  uncapped config ->
  forall (st st' : LoopState rt),
    detailLoop rt config items st = (true, st') ->
    exists new,
      events st' = events st ++ new
      /\ List.map eventUrl new = List.map ListArticle.url items
      /\ world st' = openAll rt (List.map ListArticle.url items) (world st)
      /\ detailPagesFetched new = List.map ListArticle.url items
      /\ listPagesVisited new = [] /\ candidatesFound new = [].
Proof.
  intros Hno. induction items as [| la items IH]; intros st st'; cbn [detailLoop].
  - intros [= <-]. exists []. cbn. now rewrite app_nil_r.
  - rewrite (capReached_uncapped _ Hno).
    pose proof (crawlDetailPage_opens (ListArticle.url la) (Some la) (world st))
      as Hopen.
    destruct (crawlDetailPage rt config (ListArticle.url la) (Some la) (world st))
      as [[article |] w']; [| discriminate].
    cbn [snd] in Hopen. subst w'.
    intros Hrun. apply IH in Hrun. cbn [events world] in Hrun.
    destruct Hrun as [new [Hev [Hurls [Hw [Hfetched [Hlp Hcf]]]]]].
    exists (DetailPageCrawled (ListArticle.url la) (Ok article) :: new).
    rewrite Hev, Hw, <- app_assoc. cbn. rewrite Hurls, Hfetched.
    repeat split; assumption.
Qed.

(** Without a cap, a loop over list pages that is not interrupted opens
    every list page and, after each, every candidate it shows. *)
Lemma pageLoop_uncapped (pageUrls : list jsstring) :
  uncapped config ->
  forall (st st' : LoopState rt),
    pageLoop rt config pageUrls st = (true, st') ->
    exists new,
      events st' = events st ++ new
      /\ List.map eventUrl new = fullVisit rt config pageUrls (world st)
      /\ world st' = openAll rt (fullVisit rt config pageUrls (world st)) (world st)
      /\ listPagesVisited new = pageUrls
      /\ detailPagesFetched new = candidatesFound new.
Proof.
  intros Hno. induction pageUrls as [| u pageUrls IH]; intros st st'; cbn [pageLoop].
  - intros [= <-]. exists []. cbn. now rewrite app_nil_r.
  - rewrite (capReached_uncapped _ Hno).
    pose proof (crawlListPage_opens u (world st)) as Hopen.
    pose proof (crawlListPage_candidates u (world st)) as Hcands.
    destruct (crawlListPage rt config u (world st)) as [[items |] w'];
      [| discriminate].
    cbn [snd] in Hopen. subst w'. specialize (Hcands items eq_refl).
    destruct (detailLoop rt config items _) as [[|] st1] eqn:Hdetail;
      [| discriminate].
    apply (detailLoop_uncapped items Hno) in Hdetail.
    cbn [events world] in Hdetail.
    destruct Hdetail as [new1 [Hev1 [Hurls1 [Hw1 [Hfetched1 [Hlp1 Hcf1]]]]]].
    intros Hrun. apply IH in Hrun.
    destruct Hrun as [new2 [Hev2 [Hurls2 [Hw2 [Hlp2 Hfetched2]]]]].
    exists (ListPageCrawled u (Ok items) :: new1 ++ new2).
    rewrite Hev2, Hev1, <- !app_assoc. split; [reflexivity |].
    cbn [List.map eventUrl fullVisit openAll
         listPagesVisited detailPagesFetched candidatesFound].
    rewrite List.map_app, listPagesVisited_app, detailPagesFetched_app,
      candidatesFound_app, openAll_app.
    rewrite Hurls1, Hurls2, Hw2, Hw1, Hlp1, Hlp2, Hfetched1, Hfetched2, Hcf1,
      <- Hcands.
    repeat split; reflexivity.
Qed.

(** The loops do not tell a cap of 0 from no cap. *)
Lemma detailLoop_zero_cap (items : list ListArticle.t) :
  forall st : LoopState rt,
    detailLoop rt (WebsiteConfig.withMaxArticles config (Some 0)) items st
    = detailLoop rt (WebsiteConfig.withMaxArticles config None) items st.
Proof.
  induction items as [| la items IH]; intros st; [reflexivity |].
  cbn [detailLoop].
  change (capReached (WebsiteConfig.withMaxArticles config (Some 0)) (allArticles st))
    with false.
  change (capReached (WebsiteConfig.withMaxArticles config None) (allArticles st))
    with false.
  change (crawlDetailPage rt (WebsiteConfig.withMaxArticles config (Some 0)))
    with (crawlDetailPage rt (WebsiteConfig.withMaxArticles config None)).
  destruct (crawlDetailPage _ _ _ _ _) as [[article |] w']; [apply IH | reflexivity].
Qed.

Lemma pageLoop_zero_cap (pageUrls : list jsstring) :
  forall st : LoopState rt,
    pageLoop rt (WebsiteConfig.withMaxArticles config (Some 0)) pageUrls st
    = pageLoop rt (WebsiteConfig.withMaxArticles config None) pageUrls st.
Proof.
  induction pageUrls as [| u pageUrls IH]; intros st; [reflexivity |].
  cbn [pageLoop].
  change (capReached (WebsiteConfig.withMaxArticles config (Some 0)) (allArticles st))
    with false.
  change (capReached (WebsiteConfig.withMaxArticles config None) (allArticles st))
    with false.
  change (crawlListPage rt (WebsiteConfig.withMaxArticles config (Some 0)))
    with (crawlListPage rt (WebsiteConfig.withMaxArticles config None)).
  destruct (crawlListPage _ _ _ _) as [[items |] w']; [| reflexivity].
  rewrite detailLoop_zero_cap.
  destruct (detailLoop _ _ _ _) as [[|] st1]; [apply IH | reflexivity].
Qed.

(** A negative cap is reached before anything is accumulated: the loop over
    the list pages ends at its first test. *)
Lemma pageLoop_negative_cap (m : Z) (pageUrls : list jsstring)
  (st : LoopState rt) :
  WebsiteConfig.maxArticles config = Some m -> m < 0 ->
  pageLoop rt config pageUrls st = (true, st).
Proof.
  intros Hcap Hneg. destruct pageUrls as [| u pageUrls]; [reflexivity |].
  cbn [pageLoop].
  replace (capReached config (allArticles st)) with true; [reflexivity |].
  symmetry. apply capReached_true. exists m. repeat split; [exact Hcap | lia | lia].
Qed.

End NoCapProofs.

(** C10, amended: a [maxArticles] of 0 is no cap.  The run with the cap set
    to 0 is the run with the cap unset.  When it returns, the runtime has
    been made to open every list page of the Pagination Resolver and, after
    each, the detail page of every candidate that list page showed, in this
    order and nothing else: the calls of the trace are these, and the world
    the run ends in is the one the runtime reaches by opening them.  The cap
    test succeeds only for a [maxArticles] that is set and not 0: a positive
    one once that many articles are accumulated, a negative one always, so
    that the run then opens no page and returns no article. *)
Theorem crawl_zero_cap_is_no_cap (rt : Runtime) (config : WebsiteConfig.t)
  (w : World rt) :
  crawl rt (WebsiteConfig.withMaxArticles config (Some 0)) w
  = crawl rt (WebsiteConfig.withMaxArticles config None) w
  /\ (WebsiteConfig.maxArticles config = Some 0 ->
      forall b, batch (crawl rt config w) = Ok b ->
        List.map eventUrl (trace (crawl rt config w))
        = fullVisit rt config (getPageUrls config) w
        /\ finalWorld (crawl rt config w)
           = openAll rt (fullVisit rt config (getPageUrls config) w) w
        /\ listPagesVisited (trace (crawl rt config w)) = getPageUrls config
        /\ detailPagesFetched (trace (crawl rt config w))
           = candidatesFound (trace (crawl rt config w)))
  /\ finalWorld (crawl rt config w)
     = openAll rt (List.map eventUrl (trace (crawl rt config w))) w
  /\ (forall all, capReached config all = true <->
        exists m, WebsiteConfig.maxArticles config = Some m
                  /\ (m < 0 \/ (0 < m /\ m <= Z.of_nat (length all))))
  /\ (forall m, WebsiteConfig.maxArticles config = Some m -> m < 0 ->
        crawl rt config w = mkCrawlRun rt (Ok []) w []).
Proof.
  split; [| split; [| split; [| split]]].
  - unfold crawl.
    change (getPageUrls (WebsiteConfig.withMaxArticles config (Some 0)))
      with (getPageUrls (WebsiteConfig.withMaxArticles config None)).
    now rewrite pageLoop_zero_cap.
  - intros Hzero b. unfold crawl.
    destruct (pageLoop rt config (getPageUrls config) (mkLoopState [] w []))
      as [ok st] eqn:Hrun.
    cbn [batch trace finalWorld]. destruct ok; [| discriminate]. intros _.
    apply (pageLoop_uncapped rt config _ (or_intror Hzero)) in Hrun.
    cbn [events world app] in Hrun.
    destruct Hrun as [new [-> [Hurls [Hw [Hlp Hfetched]]]]]. auto.
  - unfold crawl.
    destruct (pageLoop rt config (getPageUrls config) (mkLoopState [] w []))
      as [ok st] eqn:Hrun.
    cbn [trace finalWorld]. apply pageLoop_world in Hrun.
    cbn [events world app] in Hrun. destruct Hrun as [new [-> Hw]]. exact Hw.
  - intros all. rewrite capReached_true. split.
    + intros [m [Hcap [Hne Hle]]]. exists m. split; [exact Hcap | lia].
    + intros [m [Hcap Hm]]. exists m. split; [exact Hcap | lia].
  - intros m Hcap Hneg. unfold crawl.
    now rewrite (pageLoop_negative_cap rt config m _ _ Hcap Hneg).
Qed.

Lemma crawl_zero_cap_is_no_cap_witness :
  WebsiteConfig.maxArticles (sampleConfig (js "http://site/list") (Some 0)) = Some 0
  /\ (exists b,
        batch (crawl journalRuntime (sampleConfig (js "http://site/list") (Some 0)) [])
        = Ok b)
  /\ finalWorld (crawl journalRuntime (sampleConfig (js "http://site/list") (Some 0)) [])
     = [ js "http://site/list"; js "http://site/a1"; js "http://site/a2";
         js "http://site/a3"; js "http://site/a4"; js "http://site/a5" ]
  /\ finalWorld (crawl journalRuntime (sampleConfig (js "http://site/list") (Some 0)) [])
     = openAll journalRuntime
         (fullVisit journalRuntime (sampleConfig (js "http://site/list") (Some 0))
            (getPageUrls (sampleConfig (js "http://site/list") (Some 0))) [])
         [].
Proof.
  split; [reflexivity |]. split; [eexists; vm_compute; reflexivity |].
  split; [vm_compute; reflexivity |].
  destruct (crawl_zero_cap_is_no_cap journalRuntime
              (sampleConfig (js "http://site/list") (Some 0)) []) as [_ [H _]].
  refine (proj1 (proj2 (H eq_refl _ _))). vm_compute. reflexivity.
Defined.

(** C10, the claim as stated fails on its last clause.  With [maxArticles]
    set to -1, which is not a positive number, the cap test succeeds at
    once: the run opens no page and returns no article, where the run
    without a cap opens six pages and returns three articles. *)
Lemma crawl_negative_cap_opens_nothing :
  WebsiteConfig.maxArticles (sampleConfig (js "http://site/list") (Some (-1)))
  = Some (-1)
  /\ ~ 0 < -1
  /\ capReached (sampleConfig (js "http://site/list") (Some (-1))) [] = true
  /\ batch (crawl journalRuntime (sampleConfig (js "http://site/list") (Some (-1))) [])
     = Ok []
  /\ finalWorld
       (crawl journalRuntime (sampleConfig (js "http://site/list") (Some (-1))) [])
     = []
  /\ length (finalWorld
               (crawl journalRuntime (sampleConfig (js "http://site/list") None) []))
     = 6%nat
  /\ (exists b,
        batch (crawl journalRuntime (sampleConfig (js "http://site/list") None) [])
        = Ok b /\ length b = 3%nat).
Proof.
  split; [reflexivity |]. split; [lia |]. split; [reflexivity |].
  split; [reflexivity |]. split; [reflexivity |].
  split; [vm_compute; reflexivity |].
  eexists. split; [vm_compute; reflexivity | reflexivity].
Qed.

(** ** Summarization Client *)

Section SummaryProofs.
Import AIService.
Variable be : Backend.
Variable apiKey : jsstring.

(** An article without content is answered [null] at once: nothing is
    posted and the state is the same. *)
Lemma generateSummary_skips_empty (retries : nat) (a : Article.t)
  (st : ServiceState be) :
  truthy (Article.content a) = false ->
  generateSummary be apiKey retries a st = (Some None, st).
Proof.
  intros Hempty. destruct retries; cbn [generateSummary];
    rewrite Hempty; destruct (nonEmpty apiKey); reflexivity.
Qed.

(** The cases of [generateSummary] that return without a post, and those
    that return after one. *)
Ltac no_post :=
  intros [= <- <-]; exists []; rewrite app_nil_r; split; [reflexivity |];
  split; [intros p Hp; inversion Hp | discriminate].

Ltac one_post prompt :=
  intros [= <- <-]; exists [prompt]; split; [reflexivity |];
  split; [intros p Hp; apply list_elem_of_singleton in Hp; auto
         | first [discriminate | auto]].

(** What [generateSummary] posts is the prompt of its article, and only
    with a key and a content; a summary comes from a post. *)
Lemma generateSummary_posts (retries : nat) (a : Article.t) :
  forall (st st' : ServiceState be) (r : option (option jsstring)),
    generateSummary be apiKey retries a st = (r, st') ->
    exists new,
      posted be st' = posted be st ++ new
      /\ (forall p, p ∈ new ->
                    p = buildSummaryPrompt be a
                    /\ truthy (Article.content a) = true
                    /\ nonEmpty apiKey = true)
      /\ (forall s, r = Some (Some s) ->
                    truthy (Article.content a) = true /\ nonEmpty apiKey = true).
Proof.
  induction retries as [| retries IH]; intros st st' r; cbn [generateSummary].
  all: destruct (nonEmpty apiKey) eqn:Hkey; cbn [negb]; [| no_post].
  all: destruct (truthy (Article.content a)) eqn:Hcontent; cbn [negb]; [| no_post].
  all: destruct (post be (buildSummaryPrompt be a) (net be st)) as [[text | status] n'];
    cbn [posted]; [one_post (buildSummaryPrompt be a) |].
  all: case_bool_decide; [| one_post (buildSummaryPrompt be a)].
  - (* rate-limited, no retry left *)
    one_post (buildSummaryPrompt be a).
  - (* rate-limited, retry *)
    intros Hrun. apply IH in Hrun. cbn [posted] in Hrun.
    destruct Hrun as [new [Hposted [Hnew Hsum]]].
    exists (buildSummaryPrompt be a :: new). rewrite Hposted, <- app_assoc.
    split; [reflexivity |]. split; [| exact Hsum].
    intros p Hp. apply elem_of_cons in Hp. destruct Hp as [-> | Hp]; auto.
Qed.

(** The loop adds keys and posts prompts only for articles that have a
    content. *)
Lemma batchLoop_sound (retries : nat) (articles : list Article.t) :
  forall (summaryMap : gmap jsstring jsstring) (st st' : ServiceState be)
         (r : option (gmap jsstring jsstring)),
    batchLoop be apiKey retries articles summaryMap st = (r, st') ->
    exists new,
      posted be st' = posted be st ++ new
      /\ (forall p, p ∈ new ->
                    exists a, a ∈ articles /\ p = buildSummaryPrompt be a
                              /\ truthy (Article.content a) = true
                              /\ nonEmpty apiKey = true)
      /\ (forall m u, r = Some m -> u ∈ dom m ->
                      u ∈ dom summaryMap
                      \/ exists a, a ∈ articles /\ Article.url a = u
                                   /\ truthy (Article.content a) = true).
Proof.
  induction articles as [| a articles IH]; intros summaryMap st st' r;
    cbn [batchLoop].
  - intros [= <- <-]. exists []. rewrite app_nil_r. split; [reflexivity |].
    split; [intros p Hp; inversion Hp |]. intros m u [= <-] Hu. now left.
  - destruct (nonEmpty (Article.url a)); cbn [negb].
    2:{ intros Hrun. apply IH in Hrun. destruct Hrun as [new [Hposted [Hnew Hkeys]]].
        exists new. split; [exact Hposted |]. split.
        - intros p Hp. destruct (Hnew p Hp) as [a' [Ha' H]].
          exists a'. split; [now apply list_elem_of_further | exact H].
        - intros m u Hr Hu. destruct (Hkeys m u Hr Hu) as [Hold | [a' [Ha' H]]];
            [now left | right].
          exists a'. split; [now apply list_elem_of_further | exact H]. }
    destruct (generateSummary be apiKey retries a st) as [[summary |] st1] eqn:Hgen;
      apply generateSummary_posts in Hgen;
      destruct Hgen as [new1 [Hposted1 [Hnew1 Hsum1]]].
    + intros Hrun. apply IH in Hrun. destruct Hrun as [new2 [Hposted2 [Hnew2 Hkeys2]]].
      exists (new1 ++ new2). rewrite Hposted2, Hposted1, <- app_assoc.
      split; [reflexivity |]. split.
      * intros p Hp. apply elem_of_app in Hp. destruct Hp as [Hp | Hp].
        -- exists a. split; [apply list_elem_of_here | now apply Hnew1].
        -- destruct (Hnew2 p Hp) as [a' [Ha' H]].
           exists a'. split; [now apply list_elem_of_further | exact H].
      * intros m u Hr Hu. destruct (Hkeys2 m u Hr Hu) as [Hold | [a' [Ha' H]]].
        -- destruct (truthy summary) eqn:Hsummary; [| now left].
           apply elem_of_dom in Hold.
           destruct (decide (Article.url a = u)) as [Heq | Hne].
           ++ right. exists a. split; [apply list_elem_of_here |].
              split; [exact Heq |].
              destruct summary as [s |]; [| discriminate]. now apply (Hsum1 s).
           ++ left. rewrite lookup_insert_ne in Hold by exact Hne.
              now apply elem_of_dom.
        -- right. exists a'. split; [now apply list_elem_of_further | exact H].
    + intros [= <- <-]. exists new1. split; [exact Hposted1 |]. split.
      * intros p Hp. exists a. split; [apply list_elem_of_here | now apply Hnew1].
      * intros m u [=].
Qed.

(** C9: an article with empty content is answered at once, without a call
    to the backend; every key of the mapping returned for a batch is the URL
    of an article of the batch that has a content, so that the URL of an
    article with empty content is not a key (unless the batch holds the same
    URL again with a content); every prompt posted is that of an article of
    the batch that has a content; and without an API key nothing is posted
    and the mapping is empty. *)
Theorem generateSummaryBatch_skips_empty_content (retries : nat)
  (articles : list Article.t) (n : Net be) :
  (forall a st, truthy (Article.content a) = false ->
                generateSummary be apiKey retries a st = (Some None, st))
  /\ (forall m u,
        (generateSummaryBatch be apiKey retries articles n).1 = Some m ->
        u ∈ dom m ->
        exists a, a ∈ articles /\ Article.url a = u
                  /\ truthy (Article.content a) = true)
  /\ (forall m a,
        (generateSummaryBatch be apiKey retries articles n).1 = Some m ->
        a ∈ articles ->
        truthy (Article.content a) = false ->
        (forall a', a' ∈ articles -> Article.url a' = Article.url a ->
                    truthy (Article.content a') = false) ->
        Article.url a ∉ dom m)
  /\ (forall p,
        p ∈ posted be (generateSummaryBatch be apiKey retries articles n).2 ->
        exists a, a ∈ articles /\ p = buildSummaryPrompt be a
                  /\ truthy (Article.content a) = true)
  /\ (apiKey = [] ->
      generateSummaryBatch be apiKey retries articles n
      = (Some ∅, mkServiceState be n [])).
Proof.
  unfold generateSummaryBatch.
  destruct (batchLoop be apiKey retries articles ∅ (mkServiceState be n []))
    as [r st'] eqn:Hrun.
  pose proof (batchLoop_sound retries articles _ _ _ _ Hrun)
    as [new [Hposted [Hnew Hkeys]]].
  cbn [posted app] in Hposted. cbn [fst snd].
  assert (Hfrom : forall m u, r = Some m -> u ∈ dom m ->
                    exists a, a ∈ articles /\ Article.url a = u
                              /\ truthy (Article.content a) = true).
  { intros m u Hr Hu. destruct (Hkeys m u Hr Hu) as [Hempty | H]; [| exact H].
    rewrite dom_empty_L in Hempty. now apply not_elem_of_empty in Hempty. }
  split; [| split; [| split; [| split]]].
  - intros a st. apply generateSummary_skips_empty.
  - exact Hfrom.
  - intros m a Hr Ha Hempty Hsame Hin.
    destruct (Hfrom m (Article.url a) Hr Hin) as [a' [Ha' [Hurl Hcontent]]].
    rewrite (Hsame a' Ha' Hurl) in Hcontent. discriminate.
  - intros p Hp. rewrite Hposted in Hp.
    destruct (Hnew p Hp) as [a [Ha [Hprompt [Hcontent _]]]]. eauto.
  - intros Hkey. assert (Hno : new = []).
    { destruct new as [| p new']; [reflexivity |].
      destruct (Hnew p (list_elem_of_here _ _)) as [a [_ [_ [_ Hk]]]].
      rewrite Hkey in Hk. discriminate. }
    subst new. rewrite <- Hrun. rewrite Hkey. clear.
    generalize (mkServiceState be n []).
    induction articles as [| a l IH]; intros st; cbn [batchLoop]; [reflexivity |].
    destruct (nonEmpty (Article.url a)); cbn [negb]; [| apply IH].
    replace (generateSummary be [] retries a st) with (Some (@None jsstring), st)
      by (destruct retries; reflexivity).
    apply IH.
Qed.

End SummaryProofs.

Lemma generateSummaryBatch_skips_empty_content_witness :
  let articles := [sampleArticle (js "u1") (Some (js "text"));
                   sampleArticle (js "u2") None;
                   sampleArticle (js "u3") (Some [])] in
  exists m st,
    AIService.generateSummaryBatch sampleBackend (js "key") 0 articles tt = (Some m, st)
    /\ m = {[ js "u1" := js "a summary" ]}
    /\ length (AIService.posted sampleBackend st) = 1%nat
    /\ js "u2" ∉ dom m.
Proof.
  cbv zeta. eexists. eexists.
  split; [vm_compute; reflexivity |]. split; [reflexivity |].
  split; [reflexivity |].
  pose proof (generateSummaryBatch_skips_empty_content sampleBackend (js "key") 0
                [sampleArticle (js "u1") (Some (js "text"));
                 sampleArticle (js "u2") None;
                 sampleArticle (js "u3") (Some [])] tt) as [_ [_ [H _]]].
  refine (H _ (sampleArticle (js "u2") None) _ _ _ _).
  - vm_compute. reflexivity.
  - apply list_elem_of_further, list_elem_of_here.
  - reflexivity.
  - intros a' Ha' Hurl.
    repeat (apply elem_of_cons in Ha'; destruct Ha' as [-> | Ha']);
      try reflexivity; try discriminate Hurl.
    inversion Ha'.
Defined.
